(** * USB device class drivers (CDC-ACM and MIDI streaming)

    A shallow embedding of [micropython/usbd/midi.py] and
    [micropython/usbd/cdc.py], and the properties of their descriptor
    tables, jack numbering, ring buffer, control-transfer handler and
    bulk data path.

    Python integers are [Z]; a [bytes]/[bytearray] is a [list Z] whose
    elements are in [0, 256); Python exceptions are the [Raise] results of
    the [result] monad; mutable objects are records threaded through the
    methods that update them. *)

From Stdlib Require Import ZArith Lia List Bool.
From Stdlib Require String.
From stdpp Require Import base tactics option list strings pretty.

Local Open Scope Z_scope.

(** ** Exceptions and the error monad *)

Inductive exn : Type :=
| TypeError
| ValueError
| IndexError
| AttributeError
| ZeroDivisionError
| MemoryError.

Inductive result (A : Type) : Type :=
| Ok (a : A)
| Raise (e : exn).

Arguments Ok {A} a.
Arguments Raise {A} e.

Definition bind {A B : Type} (c : result A) (k : A -> result B) : result B :=
  match c with
  | Ok a => k a
  | Raise e => Raise e
  end.

Notation "x <- c1 ;; c2" := (bind c1 (fun x => c2))
  (at level 100, c1 at next level, right associativity).

(** [for x in xs: acc = body(x, acc)], stopping at the first exception. *)
Fixpoint for_each {A X : Type} (xs : list X) (body : X -> A -> result A)
  (acc : A) : result A :=
  match xs with
  | [] => Ok acc
  | x :: xs' => acc' <- body x acc ;; for_each xs' body acc'
  end.

(** Python's [range(n)]: [0, 1, ..., n-1], empty when [n <= 0]. *)
Definition range (n : Z) : list Z := seqZ 0 n.

(** ** [ustruct]: MicroPython's struct packing, little-endian, no padding

    The three format codes the drivers use.  MicroPython stores the low
    bytes of an integer that does not fit its field, ignores arguments
    left over when the format string is exhausted, and leaves at zero the
    fields for which no argument is left; a buffer too small to unpack
    raises. *)
Module ustruct.

Inductive code : Type := B | H | L.

Definition calcsize1 (c : code) : nat :=
  match c with B => 1 | H => 2 | L => 4 end%nat.

Definition calcsize (fmt : list code) : nat :=
  fold_right (fun c n => (calcsize1 c + n)%nat) 0%nat fmt.

(** the [n] low bytes of [v], least significant first *)
Fixpoint le_bytes (n : nat) (v : Z) : list Z :=
  match n with
  | O => []
  | S n' => v mod 256 :: le_bytes n' (v / 256)
  end.

(** the unsigned integer held by little-endian bytes *)
Fixpoint le_int (bs : list Z) : Z :=
  match bs with
  | [] => 0
  | b :: bs' => b + 256 * le_int bs'
  end.

Fixpoint pack (fmt : list code) (args : list Z) : result (list Z) :=
  match fmt with
  | [] => Ok []
  | c :: fmt' =>
      match args with
      | [] =>
          rest <- pack fmt' [] ;;
          Ok (le_bytes (calcsize1 c) 0 ++ rest)
      | v :: args' =>
          rest <- pack fmt' args' ;;
          Ok (le_bytes (calcsize1 c) v ++ rest)
      end
  end.

Fixpoint unpack_fields (fmt : list code) (buf : list Z) : list Z :=
  match fmt with
  | [] => []
  | c :: fmt' =>
      le_int (firstn (calcsize1 c) buf)
        :: unpack_fields fmt' (skipn (calcsize1 c) buf)
  end.

Definition unpack (fmt : list code) (buf : list Z) : result (list Z) :=
  if (length buf <? calcsize fmt)%nat then Raise ValueError
  else Ok (unpack_fields fmt buf).

End ustruct.

Import ustruct.

(** ** The host framework ([.device] and [.utils])

    The drivers subclass the framework's [USBInterface] and call its
    helpers.  What they consume is kept abstract: the standard interface
    descriptor the base class builds, the endpoint descriptor encoder, the
    split of [bmRequestType], and the stage, request type and endpoint
    direction constants. *)

Inductive xfer_type : Type := bulk | interrupt.

Class Framework : Type := {
  (** [USBInterface.get_itf_descriptor] of an interface registered with
      (class, subclass, protocol), called with (num_eps, itf_idx, str_idx) *)
  super_get_itf_descriptor :
    Z * Z * Z -> Z -> Z -> Z -> list Z * list String.string;
  endpoint_descriptor : Z -> xfer_type -> Z -> Z -> list Z;
  (** (recipient, type, direction) *)
  split_bmRequestType : Z -> Z * Z * Z;
  STAGE_SETUP : Z;
  STAGE_DATA : Z;
  STAGE_ACK : Z;
  REQ_TYPE_STANDARD : Z;
  REQ_TYPE_CLASS : Z;
  EP_IN_FLAG : Z;
  EP_OUT_FLAG : Z
}.

(** One call of [USBInterface.submit_xfer(ep_addr, data, done_cb)]: the
    endpoint (an attribute that may still be [None]), the buffer as it is
    when submitted, and the callback by its name. *)
Inductive callback : Type :=
| receive_data_callback_cb
| _cb_rx_cb.

Record xfer : Type := Xfer {
  xfer_ep : option Z;
  xfer_buf : list Z;
  xfer_cb : option callback
}.

(** Python's [a % b]: the sign of the result follows [b], as [Z.modulo]. *)
Definition py_mod (a b : Z) : result Z :=
  if b =? 0 then Raise ZeroDivisionError else Ok (a mod b).

(** Python's index normalisation: a negative index counts from the end. *)
Definition norm_index (l : list Z) (i : Z) : result nat :=
  let j := if i <? 0 then i + Z.of_nat (length l) else i in
  if (0 <=? j) && (j <? Z.of_nat (length l)) then Ok (Z.to_nat j)
  else Raise IndexError.

(** Python's [l[i]]. *)
Definition getitem (l : list Z) (i : Z) : result Z :=
  j <- norm_index l i ;;
  match l !! j with
  | Some v => Ok v
  | None => Raise IndexError
  end.

(** Python's [l[i]] on a list of any element type. *)
Definition list_getitem {A : Type} (l : list A) (i : Z) : result A :=
  let j := if i <? 0 then i + Z.of_nat (length l) else i in
  if (0 <=? j) && (j <? Z.of_nat (length l)) then
    match l !! Z.to_nat j with
    | Some v => Ok v
    | None => Raise IndexError
    end
  else Raise IndexError.

(** [buf[i] = value] on a [bytearray]; MicroPython keeps the low byte. *)
Definition setitem (buf : list Z) (i value : Z) : result (list Z) :=
  j <- norm_index buf i ;; Ok (<[j := value mod 256]> buf).

(** Reading an attribute that the constructor may not have set. *)
Definition attr {A : Type} (a : option A) : result A :=
  match a with
  | Some v => Ok v
  | None => Raise AttributeError
  end.

(** ** midi.py *)

Definition _INTERFACE_CLASS_AUDIO : Z := 0x01.
Definition _INTERFACE_SUBCLASS_AUDIO_CONTROL : Z := 0x01.
Definition _INTERFACE_SUBCLASS_AUDIO_MIDISTREAMING : Z := 0x03.
Definition _PROTOCOL_NONE : Z := 0x00.

Definition _JACK_TYPE_EMBEDDED : Z := 0x01.
Definition _JACK_TYPE_EXTERNAL : Z := 0x02.

Module RingBuf.

Record t : Type := Make {
  data : list Z;
  size : Z;
  index_put : Z;
  index_get : Z
}.

(** [bytearray(size)] of a negative size cannot be allocated. *)
Definition __init__ (size : Z) : result t :=
  if size <? 0 then Raise MemoryError
  else Ok {| data := repeat 0 (Z.to_nat size); size := size;
             index_put := 0; index_get := 0 |}.

(** Returns the new buffer and the method's return value ([None] on
    overflow). *)
Definition put (self : t) (value : Z) : result (t * option Z) :=
  next_index <- py_mod (index_put self + 1) (size self) ;;
  (* check for overflow *)
  if negb (index_get self =? next_index) then
    data' <- setitem (data self) (index_put self) value ;;
    Ok ({| data := data'; size := size self;
           index_put := next_index; index_get := index_get self |},
        Some value)
  else Ok (self, None).

Definition get (self : t) : result (t * option Z) :=
  if index_get self =? index_put self then
    Ok (self, None) (* buffer empty *)
  else
    value <- getitem (data self) (index_get self) ;;
    next <- py_mod (index_get self + 1) (size self) ;;
    Ok ({| data := data self; size := size self;
           index_put := index_put self; index_get := next |},
        Some value).

Definition is_empty (self : t) : bool :=
  index_get self =? index_put self.

End RingBuf.

Module MIDIInterface.
Section with_framework.
Context {F : Framework}.

(** [rb] and [rx_data] are read by the methods below but not assigned by
    [__init__]: they are [None] until the application attaches them. *)
Record t : Type := Make {
  _num_rx : Z;
  _num_tx : Z;
  ep_out : option Z;  (* Set during enumeration *)
  ep_in : option Z;
  _rx_buf : list Z;
  rb : option RingBuf.t;
  rx_data : option (list Z)
}.

Definition __init__ (num_rx num_tx : Z) : t :=
  {| _num_rx := num_rx; _num_tx := num_tx;
     ep_out := None; ep_in := None;
     _rx_buf := repeat 0 64%nat;
     rb := None; rx_data := None |}.

Definition with_rb (self : t) (rb' : RingBuf.t) : t :=
  {| _num_rx := _num_rx self; _num_tx := _num_tx self;
     ep_out := ep_out self; ep_in := ep_in self;
     _rx_buf := _rx_buf self;
     rb := Some rb'; rx_data := rx_data self |}.

Definition midi_received (self : t) : result bool :=
  rb <- attr (rb self) ;; Ok (negb (RingBuf.is_empty rb)).

Definition get_rb (self : t) : result (t * option Z) :=
  rb <- attr (rb self) ;;
  r <- RingBuf.get rb ;;
  Ok (with_rb self (fst r), snd r).

(** [self.rb.put(self.rx_data[i])], the body of the callback's loop *)
Definition put_received (i : Z) (self : t) : result t :=
  rb <- attr (rb self) ;;
  rx_data <- attr (rx_data self) ;;
  value <- getitem rx_data i ;;
  r <- RingBuf.put rb value ;;
  Ok (with_rb self (fst r)).

(** Returns the updated interface and the transfers it submitted. *)
Definition receive_data_callback (self : t) (ep_addr result_ xferred_bytes : Z)
  : result (t * list xfer) :=
  self' <- for_each (range xferred_bytes) put_received self ;;
  rx_data <- attr (rx_data self') ;;
  Ok (self', [Xfer (Some 0x03) rx_data (Some receive_data_callback_cb)]).

Definition start_receive_data (self : t) : result (t * list xfer) :=
  rx_data <- attr (rx_data self) ;;
  Ok (self, [Xfer (ep_in self) rx_data (Some receive_data_callback_cb)]).

Definition _emb_id (self : t) (is_tx : bool) (idx : Z) : Z :=
  1 + 2 * (idx + (Z.b2z is_tx * _num_rx self)).

Definition _JACK_IN_DESC_LEN : Z := 6.
Definition _JACK_OUT_DESC_LEN : Z := 9.

(** Midi Streaming interface descriptor *)
Definition cs_ms_interface (self : t) : result (list Z) :=
  pack [B; B; B; H; H]
    [7;      (* bLength *)
     0x24;   (* bDescriptorType CS_INTERFACE *)
     0x01;   (* bDescriptorSubtype MS_HEADER *)
     0x0100; (* BcdADC *)
     (* wTotalLength: this descriptor, plus length of all Jack descriptors *)
     7 + (2 * (_JACK_IN_DESC_LEN + _JACK_OUT_DESC_LEN)
            * (_num_rx self + _num_tx self))].

Definition jack_in_desc (bJackType bJackID : Z) : result (list Z) :=
  pack [B; B; B; B; B; B]
    [_JACK_IN_DESC_LEN; (* bLength *)
     0x24;              (* bDescriptorType CS_INTERFACE *)
     0x02;              (* bDescriptorSubtype MIDI_IN_JACK *)
     bJackType;
     bJackID;
     0x00].             (* iJack *)

Definition jack_out_desc (bJackType bJackID bSourceId bSourcePin : Z)
  : result (list Z) :=
  pack [B; B; B; B; B; B; B; B; B]
    [_JACK_OUT_DESC_LEN; (* bLength *)
     0x24;               (* bDescriptorType CS_INTERFACE *)
     0x03;               (* bDescriptorSubtype MIDI_OUT_JACK *)
     bJackType;
     bJackID;
     0x01;               (* bNrInputPins *)
     bSourceId;          (* baSourceID(1) *)
     bSourcePin;         (* baSourcePin(1) *)
     0x00].              (* iJack *)

(** the three assignments that open the body of both loops:
    [(emb_id, ext_id, pin)] *)
Definition connection_ids (self : t) (is_tx : bool) (idx : Z) : Z * Z * Z :=
  let emb_id := _emb_id self is_tx idx in
  let ext_id := emb_id + 1 in
  let pin := idx + 1 in
  (emb_id, ext_id, pin).

(** body of the rx side loop *)
Definition rx_side (self : t) (idx : Z) (jacks : list Z) : result (list Z) :=
  let '(emb_id, ext_id, pin) := connection_ids self false idx in
  d_in <- jack_in_desc _JACK_TYPE_EMBEDDED emb_id ;;
  let jacks := jacks ++ d_in in
  d_out <- jack_out_desc _JACK_TYPE_EXTERNAL ext_id emb_id pin ;;
  Ok (jacks ++ d_out).

(** body of the tx side loop *)
Definition tx_side (self : t) (idx : Z) (jacks : list Z) : result (list Z) :=
  let '(emb_id, ext_id, pin) := connection_ids self true idx in
  d_in <- jack_in_desc _JACK_TYPE_EXTERNAL ext_id ;;
  let jacks := jacks ++ d_in in
  d_out <- jack_out_desc _JACK_TYPE_EMBEDDED emb_id ext_id pin ;;
  Ok (jacks ++ d_out).

(** the [jacks] bytearray once both loops have run *)
Definition jacks (self : t) : result (list Z) :=
  jacks <- for_each (range (_num_rx self)) (rx_side self) [] ;;
  for_each (range (_num_tx self)) (tx_side self) jacks.

Definition get_itf_descriptor (self : t) (num_eps itf_idx str_idx : Z)
  : result (list Z * list String.string) :=
  let '(desc, strs) :=
    super_get_itf_descriptor
      (_INTERFACE_CLASS_AUDIO, _INTERFACE_SUBCLASS_AUDIO_MIDISTREAMING,
       _PROTOCOL_NONE) num_eps itf_idx str_idx in
  cs_ms_interface <- cs_ms_interface self ;;
  jacks <- jacks self ;;
  let iface := desc ++ cs_ms_interface ++ jacks in
  Ok (iface, strs).

(** class-specific endpoint descriptor listing [n] embedded jacks *)
Definition cs_endpoint (self : t) (is_tx : bool) (n : Z) : result (list Z) :=
  pack ([B; B; B; B] ++ repeat B (Z.to_nat n))
    ([4 + n; (* bLength *)
      0x25;  (* bDescriptorType CS_ENDPOINT *)
      0x01;  (* bDescriptorSubtype MS_GENERAL *)
      n]     (* bNumEmbMIDIJack *)
     ++ (_emb_id self is_tx <$> range n)).

Definition get_endpoint_descriptors (self : t) (ep_addr str_idx : Z)
  : result (t * (list Z * list String.string * (Z * Z))) :=
  let ep_out := Z.lor (ep_addr + 1) EP_OUT_FLAG in
  let ep_in := ep_addr + 2 in
  let self := {| _num_rx := _num_rx self; _num_tx := _num_tx self;
                 ep_out := Some ep_out; ep_in := Some ep_in;
                 _rx_buf := _rx_buf self;
                 rb := rb self; rx_data := rx_data self |} in
  (* rx side, USB "out" endpoint and embedded MIDI IN Jacks *)
  let e_out := endpoint_descriptor ep_out bulk 64 0 in
  cs_out <- cs_endpoint self false (_num_rx self) ;;
  (* tx side, USB "in" endpoint and embedded MIDI OUT jacks *)
  let e_in := endpoint_descriptor ep_in bulk 64 0 in
  cs_in <- cs_endpoint self true (_num_tx self) ;;
  let desc := e_out ++ cs_out ++ e_in ++ cs_in in
  Ok (self, (desc, [], (ep_out, ep_in))).

(** Helper function to send data. *)
Definition send_data (self : t) (tx_data : list Z) : list xfer :=
  [Xfer (ep_out self) tx_data None].

End with_framework.
End MIDIInterface.

(** An Audio Class interface is mandatory for MIDI interfaces as well; this
    class implements the minimum necessary for this. *)
Module DummyAudioInterface.
Section with_framework.
Context {F : Framework}.

Definition get_itf_descriptor (num_eps itf_idx str_idx : Z)
  : result (list Z * list String.string) :=
  (* Get the parent interface class *)
  let '(desc, strs) :=
    super_get_itf_descriptor
      (_INTERFACE_CLASS_AUDIO, _INTERFACE_SUBCLASS_AUDIO_CONTROL,
       _PROTOCOL_NONE) num_eps itf_idx str_idx in
  (* Append the class-specific AudioControl interface descriptor *)
  d <- pack [B; B; B; H; H; B; B]
         [9;      (* bLength *)
          0x24;   (* bDescriptorType CS_INTERFACE *)
          0x01;   (* bDescriptorSubtype MS_HEADER *)
          0x0100; (* BcdADC *)
          0x0009; (* wTotalLength *)
          0x01;   (* bInCollection *)
          (* baInterfaceNr value assumes the next interface will be
             MIDIInterface *)
          itf_idx + 1] ;;
  Ok (desc ++ d, strs).

End with_framework.
End DummyAudioInterface.

(** Very basic synchronous USB MIDI interface *)
Module MidiUSB.
Section with_framework.
Context {F : Framework}.

Definition __init__ : MIDIInterface.t := MIDIInterface.__init__ 1 1.

Definition note_on (self : MIDIInterface.t) (channel pitch vel : Z)
  : result (list xfer) :=
  obuf <- pack [B; B; B; B] [0x09; Z.lor 0x90 channel; pitch; vel] ;;
  Ok (MIDIInterface.send_data self obuf).

Definition note_off (self : MIDIInterface.t) (channel pitch vel : Z)
  : result (list xfer) :=
  obuf <- pack [B; B; B; B] [0x08; Z.lor 0x80 channel; pitch; vel] ;;
  Ok (MIDIInterface.send_data self obuf).

Definition start (self : MIDIInterface.t)
  : result (MIDIInterface.t * list xfer) :=
  MIDIInterface.start_receive_data self.

Definition midi_received (self : MIDIInterface.t) : result bool :=
  MIDIInterface.midi_received self.

(** Returns the updated interface and the tuple [(cin, cmd, val1, val2)]. *)
Definition get_midi (self : MIDIInterface.t)
  : result (MIDIInterface.t * (option Z * option Z * option Z * option Z)) :=
  received <- MIDIInterface.midi_received self ;;
  if received then
    cin <- MIDIInterface.get_rb self ;;
    cmd <- MIDIInterface.get_rb (fst cin) ;;
    val1 <- MIDIInterface.get_rb (fst cmd) ;;
    val2 <- MIDIInterface.get_rb (fst val1) ;;
    Ok (fst val2, (snd cin, snd cmd, snd val1, snd val2))
  else Ok (self, (None, None, None, None)).

End with_framework.
End MidiUSB.

(** ** cdc.py *)

Definition _DEV_CLASS_MISC : Z := 0xef.
Definition _CS_DESC_TYPE : Z := 0x24. (* CS Interface type communication descriptor *)
Definition _ITF_ASSOCIATION_DESC_TYPE : Z := 0xb. (* Interface Association descriptor *)

(* CDC control interface definitions *)
Definition _INTERFACE_CLASS_CDC : Z := 2.
Definition _INTERFACE_SUBCLASS_CDC : Z := 2. (* Abstract Control Mode *)

(* CDC descriptor subtype *)
Definition _CDC_FUNC_DESC_HEADER : Z := 0.
Definition _CDC_FUNC_DESC_CALL_MANAGEMENT : Z := 1.
Definition _CDC_FUNC_DESC_ABSTRACT_CONTROL : Z := 2.
Definition _CDC_FUNC_DESC_UNION : Z := 6.

(* CDC class requests *)
Definition _SET_LINE_CODING_REQ : Z := 0x20.
Definition _GET_LINE_CODING_REQ : Z := 0x21.
Definition _SET_CONTROL_LINE_STATE : Z := 0x22.
Definition _SEND_BREAK_REQ : Z := 0x23.

Definition _CDC_VERSION : Z := 0x0120. (* release number in binary-coded decimal *)

(* CDC data interface definitions *)
Definition _CDC_ITF_DATA_CLASS : Z := 0xa.
Definition _CDC_ITF_DATA_SUBCLASS : Z := 0.
Definition _CDC_ITF_DATA_PROT : Z := 0. (* no protocol *)

(** Python's [bool(n)] of an integer. *)
Definition py_bool (n : Z) : bool := negb (n =? 0).

Module CDCControlInterface.
Section with_framework.
Context {F : Framework}.

(** A registered break callback is known by a number; calling it is
    recorded in the handler's output. *)
Record t : Type := Make {
  rts : option bool;
  dtr : option bool;
  baudrate : option Z;
  stop_bits : Z;
  parity : Z;
  data_bits : option Z;
  break_cb : option nat; (* callback for break condition *)
  line_coding_state : list Z
}.

Definition __init__ : t :=
  {| rts := None; dtr := None; baudrate := None;
     stop_bits := 0; parity := 0; data_bits := None;
     break_cb := None;
     line_coding_state := repeat 0 7%nat |}.

Definition get_itf_descriptor (self : t) (num_eps itf_idx str_idx : Z)
  : result (list Z * list String.string) :=
  (* CDC needs a Interface Association Descriptor (IAD):
     two interfaces in total *)
  desc <- pack [B; B; B; B; B; B; B; B]
            [8; _ITF_ASSOCIATION_DESC_TYPE; itf_idx; 2;
             _INTERFACE_CLASS_CDC; _INTERFACE_SUBCLASS_CDC;
             _PROTOCOL_NONE; 0] ;;
  let '(itf, strs) :=
    super_get_itf_descriptor
      (_INTERFACE_CLASS_CDC, _INTERFACE_SUBCLASS_CDC, _PROTOCOL_NONE)
      num_eps itf_idx str_idx in
  let desc := desc ++ itf in
  (* the CDC class-specific interface descriptor *)
  d <- pack [B; B; B; H]
         [5;                     (* bFunctionLength *)
          _CS_DESC_TYPE;         (* bDescriptorType *)
          _CDC_FUNC_DESC_HEADER; (* bDescriptorSubtype *)
          _CDC_VERSION] ;;       (* cdc version *)
  let desc := desc ++ d in
  (* "Call Management" *)
  d <- pack [B; B; B; B; B]
         [5;                              (* bFunctionLength *)
          _CS_DESC_TYPE;                  (* bDescriptorType *)
          _CDC_FUNC_DESC_CALL_MANAGEMENT; (* bDescriptorSubtype *)
          0;                              (* bmCapabilities *)
          1] ;;                           (* bDataInterface - interface 1 *)
  let desc := desc ++ d in
  (* "Abstract Control" *)
  d <- pack [B; B; B; B]
         [4;                               (* bFunctionLength *)
          _CS_DESC_TYPE;                   (* bDescriptorType *)
          _CDC_FUNC_DESC_ABSTRACT_CONTROL; (* bDescriptorSubtype *)
          0x6] ;;                          (* bmCapabilities D1, D2 *)
  let desc := desc ++ d in
  (* "Union" *)
  d <- pack [B; B; B; H]
         [5;                    (* bFunctionLength *)
          _CS_DESC_TYPE;        (* bDescriptorType *)
          _CDC_FUNC_DESC_UNION; (* bDescriptorSubtype *)
          itf_idx;              (* bControlInterface *)
          itf_idx + 1] ;;       (* bSubordinateInterface0 (data class itf number) *)
  let desc := desc ++ d in
  Ok (desc, strs).

(** The request tuple
    [(bmRequestType, bRequest, wValue, wIndex, wLength)]. *)
Record request : Type := Request {
  bmRequestType : Z;
  bRequest : Z;
  wValue : Z;
  wIndex : Z;
  wLength : Z
}.

(** What the handler returns: the [line_coding_state] bytearray itself
    (the object, which the framework reads from or writes into during the
    DATA stage), a [bytes] value, or [True]. *)
Inductive returned : Type :=
| the_line_coding_state
| bytes_value (b : list Z)
| True_value.

Definition with_control_line (self : t) (dtr' rts' : bool) : t :=
  {| rts := Some rts'; dtr := Some dtr';
     baudrate := baudrate self; stop_bits := stop_bits self;
     parity := parity self; data_bits := data_bits self;
     break_cb := break_cb self;
     line_coding_state := line_coding_state self |}.

Definition with_line_coding (self : t) (fields : list Z) : result t :=
  match fields with
  | [baudrate'; stop_bits'; parity'; data_bits'] =>
      Ok {| rts := rts self; dtr := dtr self;
            baudrate := Some baudrate'; stop_bits := stop_bits';
            parity := parity'; data_bits := Some data_bits';
            break_cb := break_cb self;
            line_coding_state := line_coding_state self |}
  | _ => Raise ValueError
  end.

(** Returns the updated interface, the return value, and the calls made
    to the break callback (callback, duration). *)
Definition handle_interface_control_xfer (self : t) (stage : Z)
  (request : request) : result (t * returned * list (nat * Z)) :=
  let '(recipient, req_type, req_dir) :=
    split_bmRequestType (bmRequestType request) in
  let at_data (self : t) : result (t * returned * list (nat * Z)) :=
    if (stage =? STAGE_DATA) && (req_type =? REQ_TYPE_CLASS)
       && (bRequest request =? _SET_LINE_CODING_REQ) then
      (* Byte 0-3   Byte 4      Byte 5       Byte 6
         dwDTERate  bCharFormat bParityType  bDataBits *)
      fields <- unpack [L; B; B; B] (line_coding_state self) ;;
      self' <- with_line_coding self fields ;;
      Ok (self', True_value, [])
    else Ok (self, True_value, []) in
  if (stage =? STAGE_SETUP) && (req_type =? REQ_TYPE_CLASS) then
    if bRequest request =? _SET_LINE_CODING_REQ then
      Ok (self, the_line_coding_state, [])
    else if bRequest request =? _GET_LINE_CODING_REQ then
      Ok (self, the_line_coding_state, [])
    else if bRequest request =? _SET_CONTROL_LINE_STATE then
      (* DTR = BIT0, RTS = BIT1 *)
      let dtr := py_bool (Z.land (wValue request) 0x1) in
      let rts := py_bool (Z.land (wValue request) 0x2) in
      Ok (with_control_line self dtr rts, bytes_value [], [])
    else if bRequest request =? _SEND_BREAK_REQ then
      match break_cb self with
      | Some cb => Ok (self, bytes_value [], [(cb, wValue request)])
      | None => Ok (self, bytes_value [], [])
      end
    else at_data self
  else at_data self.

Definition set_break_cb (self : t) (cb : option nat) : t :=
  {| rts := rts self; dtr := dtr self;
     baudrate := baudrate self; stop_bits := stop_bits self;
     parity := parity self; data_bits := data_bits self;
     break_cb := cb;
     line_coding_state := line_coding_state self |}.

Definition get_control_line (self : t) : option bool * option bool :=
  (dtr self, rts self).

(** Modelled from the spec: the framework's DATA stage, which is not in
    these files.  The buffer returned at SETUP is "the destination for the
    upcoming DATA-stage host-to-device payload": the payload is written
    into that bytearray in place, from its start, up to its length. *)
Definition data_stage_write (self : t) (payload : list Z) : t :=
  let buf := line_coding_state self in
  let n := length buf in
  {| rts := rts self; dtr := dtr self;
     baudrate := baudrate self; stop_bits := stop_bits self;
     parity := parity self; data_bits := data_bits self;
     break_cb := break_cb self;
     line_coding_state :=
       firstn n payload ++ skipn (length (firstn n payload)) buf |}.

Definition parity_bits_repr : list string :=
  ["N"; "O"; "E"; "M"; "S"]%string.
Definition stop_bits_repr : list string := ["1"; "1.5"; "2"]%string.

(** Python's [str] of an attribute holding an integer or [None], and of one
    holding a boolean or [None]. *)
Definition str_int (v : option Z) : string :=
  match v with
  | Some n => pretty n
  | None => "None"
  end.

Definition str_bool (v : option bool) : string :=
  match v with
  | Some true => "True"
  | Some false => "False"
  | None => "None"
  end.

Definition __repr__ (self : t) : result string :=
  parity_repr <- list_getitem parity_bits_repr (parity self) ;;
  stop_repr <- list_getitem stop_bits_repr (stop_bits self) ;;
  Ok (str_int (baudrate self) +:+ "/" +:+ str_int (data_bits self)
      +:+ "/" +:+ parity_repr +:+ "/" +:+ stop_repr
      +:+ " rts=" +:+ str_bool (rts self)
      +:+ " dtr=" +:+ str_bool (dtr self) +:+ " ").

End with_framework.
End CDCControlInterface.

(** Python's [buf[:n]]: a negative [n] counts from the end, and the slice
    is clipped to the buffer. *)
Definition slice_to (buf : list Z) (n : Z) : list Z :=
  let stop := if n <? 0 then Z.max 0 (n + Z.of_nat (length buf)) else n in
  firstn (Z.to_nat stop) buf.

Module CDCDataInterface.
Section with_framework.
Context {F : Framework}.

(** [mv_buf] is a memoryview of [rx_buf]: it is read through [rx_buf].
    [__init__] assigns [rx_buf], [mv_buf] and [timeout] only: [ep_in] and
    [ep_out] are first assigned by [get_endpoint_descriptors], and
    [rx_nbytes], [rx_nbytes_requested] and [total_rx] by [read].  For these
    five, [None] is the missing attribute, and reading it raises
    AttributeError. *)
Record t : Type := Make {
  rx_buf : list Z;
  timeout : Z;
  ep_in : option Z;
  ep_out : option Z;
  rx_nbytes : option Z;
  rx_nbytes_requested : option Z;
  total_rx : option (list Z)
}.

Definition __init__ (timeout : Z) : t :=
  {| rx_buf := repeat 0 64%nat; timeout := timeout;
     ep_in := None; ep_out := None;
     rx_nbytes := None; rx_nbytes_requested := None; total_rx := None |}.

Definition get_endpoint_descriptors (self : t) (ep_addr str_idx : Z)
  : t * (list Z * list String.string * (Z * Z)) :=
  let ep_in := Z.lor (ep_addr + 1) EP_IN_FLAG in
  let ep_out := ep_addr + 2 in
  let self := {| rx_buf := rx_buf self; timeout := timeout self;
                 ep_in := Some ep_in; ep_out := Some ep_out;
                 rx_nbytes := rx_nbytes self;
                 rx_nbytes_requested := rx_nbytes_requested self;
                 total_rx := total_rx self |} in
  (* one IN / OUT Endpoint *)
  let e_out := endpoint_descriptor ep_out bulk 64 0 in
  let e_in := endpoint_descriptor ep_in bulk 64 0 in
  (self, (e_out ++ e_in, [], (ep_out, ep_in))).

(** Returns the transfers it submitted. *)
Definition write (self : t) (data : list Z) : result (list xfer) :=
  ep <- attr (ep_in self) ;;
  Ok [Xfer (Some ep) data None].

Definition _poll_rx_endpoint (self : t) (cb : callback) : result (list xfer) :=
  ep <- attr (ep_out self) ;;
  Ok [Xfer (Some ep) (rx_buf self) (Some cb)].

(** Returns the updated interface and the transfers it submitted. *)
Definition _cb_rx (self : t) (ep res num_bytes : Z)
  : result (t * list xfer) :=
  total <- attr (total_rx self) ;;
  let total := total ++ slice_to (rx_buf self) num_bytes in
  n <- attr (rx_nbytes self) ;;
  let n := n + num_bytes in
  let self := {| rx_buf := rx_buf self; timeout := timeout self;
                 ep_in := ep_in self; ep_out := ep_out self;
                 rx_nbytes := Some n;
                 rx_nbytes_requested := rx_nbytes_requested self;
                 total_rx := Some total |} in
  requested <- attr (rx_nbytes_requested self) ;;
  if n <? requested then
    (* try to get more from endpoint *)
    submitted <- _poll_rx_endpoint self _cb_rx_cb ;;
    Ok (self, submitted)
  else Ok (self, []).

(** The first four statements of [read]: reset the accumulation and submit
    one transfer. *)
Definition read_start (self : t) (nbytes : Z) : result (t * list xfer) :=
  let self := {| rx_buf := rx_buf self; timeout := timeout self;
                 ep_in := ep_in self; ep_out := ep_out self;
                 rx_nbytes := Some 0;
                 rx_nbytes_requested := Some nbytes;
                 total_rx := Some [] |} in
  submitted <- _poll_rx_endpoint self _cb_rx_cb ;;
  Ok (self, submitted).

(** The interface together with the transfers in flight on its endpoints,
    oldest first, and a record of every payload the framework has
    delivered into the receive buffer. *)
Record world : Type := World {
  itf : t;
  in_flight : list xfer;
  delivered : list (list Z)
}.

(** The oldest transfer in flight on endpoint [ep], and the others. *)
Fixpoint take_oldest (ep : Z) (xs : list xfer) : option (xfer * list xfer) :=
  match xs with
  | [] => None
  | x :: xs' =>
      if match xfer_ep x with Some e => e =? ep | None => false end then
        Some (x, xs')
      else
        match take_oldest ep xs' with
        | Some (y, rest) => Some (y, x :: rest)
        | None => None
        end
  end.

(** Modelled from the spec: the framework's completion of a transfer,
    which is not in these files.  "Within one endpoint, transfer
    completions are delivered in submission order": the oldest transfer in
    flight on the endpoint completes, and its callback, if it has one, is
    "invoked exactly once per submitted transfer" with (endpoint, result,
    byteCount).  The transfers with the callback [_cb_rx] are those of
    [_poll_rx_endpoint], whose buffer is [rx_buf]: the payload, clipped to
    the buffer, is in [rx_buf] when the callback runs.  A transfer without
    a callback (one of [write]) leaves the interface as it is.  With
    nothing in flight on the endpoint there is nothing to complete. *)
Definition complete (w : world) (ep : Z) (payload : list Z) : result world :=
  match take_oldest ep (in_flight w) with
  | None => Ok w
  | Some (x, rest) =>
      match xfer_cb x with
      | Some _cb_rx_cb =>
          let buf := rx_buf (itf w) in
          let got := firstn (length buf) payload in
          let self := {| rx_buf := got ++ skipn (length got) buf;
                         timeout := timeout (itf w);
                         ep_in := ep_in (itf w); ep_out := ep_out (itf w);
                         rx_nbytes := rx_nbytes (itf w);
                         rx_nbytes_requested := rx_nbytes_requested (itf w);
                         total_rx := total_rx (itf w) |} in
          r <- _cb_rx self ep 0 (Z.of_nat (length got)) ;;
          Ok {| itf := fst r; in_flight := rest ++ snd r;
                delivered := delivered w ++ [got] |}
      | _ =>
          Ok {| itf := itf w; in_flight := rest; delivered := delivered w |}
      end
  end.

(** The polling loop of [read].  Real time is abstracted by [periods]:
    one entry for each evaluation of the loop condition that finds the
    timeout not yet elapsed, holding the completions (endpoint, payload)
    that the framework delivers during that iteration's [sleep_ms(10)];
    when the entries run out the timeout has elapsed. *)
Fixpoint read_loop (w : world) (nbytes : Z)
  (periods : list (list (Z * list Z))) : result world :=
  match periods with
  | [] => Ok w
  | completions :: periods' =>
      n <- attr (rx_nbytes (itf w)) ;;
      if nbytes <=? n then Ok w
      else
        w' <- for_each completions
                (fun c w => complete w (fst c) (snd c)) w ;;
        read_loop w' nbytes periods'
  end.

(** Returns the world after the call and the returned [total_rx]. *)
Definition read (w : world) (nbytes : Z) (periods : list (list (Z * list Z)))
  : result (world * list Z) :=
  r <- read_start (itf w) nbytes ;;
  let w := {| itf := fst r; in_flight := in_flight w ++ snd r;
              delivered := delivered w |} in
  w' <- read_loop w nbytes periods ;;
  total <- attr (total_rx (itf w')) ;;
  Ok (w', total).

End with_framework.
End CDCDataInterface.

(** ** Reading descriptors back

    What a host sees in the bytes the drivers emit. *)

Inductive jack : Type :=
| MIDI_IN_JACK (bJackType bJackID : Z)
| MIDI_OUT_JACK (bJackType bJackID bSourceId bSourcePin : Z).

(** Splits a run of MIDI jack descriptors; [None] if the bytes are not a
    run of well-formed 6-byte IN and 9-byte one-pin OUT jack descriptors. *)
Fixpoint parse_jacks (bs : list Z) : option (list jack) :=
  match bs with
  | [] => Some []
  | bLength :: bDescriptorType :: bDescriptorSubtype :: bJackType
      :: bJackID :: b5 :: rest =>
      if (bLength =? 6) && (bDescriptorType =? 0x24)
         && (bDescriptorSubtype =? 0x02) then
        option_map (cons (MIDI_IN_JACK bJackType bJackID)) (parse_jacks rest)
      else
        match rest with
        | bSourceId :: bSourcePin :: iJack :: rest' =>
            if (bLength =? 9) && (bDescriptorType =? 0x24)
               && (bDescriptorSubtype =? 0x03) && (b5 =? 0x01) then
              option_map
                (cons (MIDI_OUT_JACK bJackType bJackID bSourceId bSourcePin))
                (parse_jacks rest')
            else None
        | _ => None
        end
  | _ => None
  end.

(** IDs of the embedded IN jacks (the rx direction) and of the embedded OUT
    jacks (the tx direction), in order of appearance. *)
Fixpoint embedded_in_ids (js : list jack) : list Z :=
  match js with
  | [] => []
  | MIDI_IN_JACK ty id :: js' =>
      if ty =? _JACK_TYPE_EMBEDDED then id :: embedded_in_ids js'
      else embedded_in_ids js'
  | MIDI_OUT_JACK _ _ _ _ :: js' => embedded_in_ids js'
  end.

Fixpoint embedded_out_ids (js : list jack) : list Z :=
  match js with
  | [] => []
  | MIDI_OUT_JACK ty id _ _ :: js' =>
      if ty =? _JACK_TYPE_EMBEDDED then id :: embedded_out_ids js'
      else embedded_out_ids js'
  | MIDI_IN_JACK _ _ :: js' => embedded_out_ids js'
  end.

(** total byte length of a list of jack descriptors *)
Definition jacks_length (js : list jack) : Z :=
  fold_right (fun j n => (match j with
                          | MIDI_IN_JACK _ _ => 6
                          | MIDI_OUT_JACK _ _ _ _ => 9
                          end) + n) 0 js.

(** The embedded jack IDs the driver generates, per direction: the calls
    [_emb_id(False, idx)] for [idx] in [range(_num_rx)] and
    [_emb_id(True, idx)] for [idx] in [range(_num_tx)] that both descriptor
    builders make. *)
Definition rx_emb_ids `{Framework} (self : MIDIInterface.t) : list Z :=
  MIDIInterface._emb_id self false <$> range (MIDIInterface._num_rx self).

Definition tx_emb_ids `{Framework} (self : MIDIInterface.t) : list Z :=
  MIDIInterface._emb_id self true <$> range (MIDIInterface._num_tx self).

(** A framework to run the drivers on at concrete inputs: the USB 2.0
    layouts of the standard interface and endpoint descriptors, the bit
    fields of [bmRequestType], and distinct stage and type codes. *)
Definition sample_framework : Framework := {|
  super_get_itf_descriptor := fun '(cls, subcls, proto) num_eps itf_idx str_idx =>
    ([9; 4; itf_idx mod 256; 0; num_eps mod 256; cls; subcls; proto;
      str_idx mod 256], []);
  endpoint_descriptor := fun ep_addr ty max_packet interval =>
    [7; 5; ep_addr mod 256;
     match ty with bulk => 2 | interrupt => 3 end;
     max_packet mod 256; (max_packet / 256) mod 256; interval mod 256];
  split_bmRequestType := fun bm =>
    (Z.land bm 0x1f, Z.land (Z.shiftr bm 5) 0x03, Z.land (Z.shiftr bm 7) 0x01);
  STAGE_SETUP := 1;
  STAGE_DATA := 2;
  STAGE_ACK := 3;
  REQ_TYPE_STANDARD := 0;
  REQ_TYPE_CLASS := 1;
  EP_IN_FLAG := 0x80;
  EP_OUT_FLAG := 0x80
|}.

(** The jacks of one rx connection and of one tx connection, as a host
    reads them back from the bytes. *)
Definition rx_connection `{Framework} (self : MIDIInterface.t) (idx : Z)
  : list jack :=
  let e := MIDIInterface._emb_id self false idx in
  [MIDI_IN_JACK _JACK_TYPE_EMBEDDED (e mod 256);
   MIDI_OUT_JACK _JACK_TYPE_EXTERNAL ((e + 1) mod 256) (e mod 256)
     ((idx + 1) mod 256)].

Definition tx_connection `{Framework} (self : MIDIInterface.t) (idx : Z)
  : list jack :=
  let e := MIDIInterface._emb_id self true idx in
  [MIDI_IN_JACK _JACK_TYPE_EXTERNAL ((e + 1) mod 256);
   MIDI_OUT_JACK _JACK_TYPE_EMBEDDED (e mod 256) ((e + 1) mod 256)
     ((idx + 1) mod 256)].

(** The 15 bytes each connection adds to [jacks]. *)
Definition rx_chunk `{Framework} (self : MIDIInterface.t) (idx : Z) : list Z :=
  let e := MIDIInterface._emb_id self false idx in
  [6; 0x24; 0x02; _JACK_TYPE_EMBEDDED; e mod 256; 0;
   9; 0x24; 0x03; _JACK_TYPE_EXTERNAL; (e + 1) mod 256; 1; e mod 256;
   (idx + 1) mod 256; 0].

Definition tx_chunk `{Framework} (self : MIDIInterface.t) (idx : Z) : list Z :=
  let e := MIDIInterface._emb_id self true idx in
  [6; 0x24; 0x02; _JACK_TYPE_EXTERNAL; (e + 1) mod 256; 0;
   9; 0x24; 0x03; _JACK_TYPE_EMBEDDED; e mod 256; 1; (e + 1) mod 256;
   (idx + 1) mod 256; 0].

(** The class-specific endpoint descriptor [cs] lists exactly the jack IDs
    [ids], and its length field (its first byte) is 4 plus their number. *)
Definition cs_lists (cs ids : list Z) : Prop :=
  skipn 4 cs = ids /\ head cs = Some (4 + Z.of_nat (length ids)).

(** The endpoint descriptors of [self] are the bulk OUT endpoint, a
    class-specific descriptor listing the embedded IN jacks of the
    interface descriptor, the bulk IN endpoint, and a class-specific
    descriptor listing its embedded OUT jacks. *)
Definition endpoint_jacks_agree `{Framework} (self : MIDIInterface.t) : Prop :=
  forall num_eps itf_idx str_idx ep_addr : Z,
  exists (header js cs_out cs_in : list Z) (jl : list jack)
         (self' : MIDIInterface.t),
    let super :=
      super_get_itf_descriptor
        (_INTERFACE_CLASS_AUDIO, _INTERFACE_SUBCLASS_AUDIO_MIDISTREAMING,
         _PROTOCOL_NONE) num_eps itf_idx str_idx in
    let ep_out := Z.lor (ep_addr + 1) EP_OUT_FLAG in
    let ep_in := ep_addr + 2 in
    MIDIInterface.get_itf_descriptor self num_eps itf_idx str_idx
      = Ok (fst super ++ header ++ js, snd super)
    /\ length header = 7%nat
    /\ parse_jacks js = Some jl
    /\ MIDIInterface.get_endpoint_descriptors self ep_addr str_idx
      = Ok (self',
            (endpoint_descriptor ep_out bulk 64 0 ++ cs_out
             ++ endpoint_descriptor ep_in bulk 64 0 ++ cs_in,
             [], (ep_out, ep_in)))
    /\ cs_lists cs_out (embedded_in_ids jl)
    /\ cs_lists cs_in (embedded_out_ids jl).

(** A request whose [bmRequestType] has the class type. *)
Definition is_class_request `{Framework}
  (request : CDCControlInterface.request) : Prop :=
  snd (fst (split_bmRequestType (CDCControlInterface.bmRequestType request)))
  = REQ_TYPE_CLASS.

(** A byte value. *)
Definition is_byte (v : Z) : Prop := 0 <= v < 256.

(** What happens to a control interface over time: the framework calls the
    handler, the framework fills the line-coding buffer during a DATA stage,
    the application registers a break callback. *)
Inductive control_event `{Framework} : Type :=
| Handle (stage : Z) (request : CDCControlInterface.request)
| DataStageWrite (payload : list Z)
| SetBreakCb (cb : option nat).

(** The event is a SET_CONTROL_LINE_STATE class request at SETUP stage. *)
Definition sets_control_line `{Framework} (e : control_event) : Prop :=
  match e with
  | Handle stage request =>
      stage = STAGE_SETUP /\ is_class_request request
      /\ CDCControlInterface.bRequest request = _SET_CONTROL_LINE_STATE
  | _ => False
  end.

Fixpoint handle_all `{Framework} (self : CDCControlInterface.t)
  (events : list control_event) : result CDCControlInterface.t :=
  match events with
  | [] => Ok self
  | Handle stage request :: events' =>
      r <- CDCControlInterface.handle_interface_control_xfer self stage request ;;
      handle_all (fst (fst r)) events'
  | DataStageWrite payload :: events' =>
      handle_all (CDCControlInterface.data_stage_write self payload) events'
  | SetBreakCb cb :: events' =>
      handle_all (CDCControlInterface.set_break_cb self cb) events'
  end.

(** The decoded line-coding fields are those the 7-byte record encodes. *)
Definition line_coding_consistent `{Framework} (self : CDCControlInterface.t)
  : Prop :=
  exists baud bits,
    CDCControlInterface.baudrate self = Some baud
    /\ CDCControlInterface.data_bits self = Some bits
    /\ pack [L; B; B; B]
         [baud; CDCControlInterface.stop_bits self;
          CDCControlInterface.parity self; bits]
       = Ok (CDCControlInterface.line_coding_state self).

(** The ring buffer's representation invariant. *)
Definition rb_wf (rb : RingBuf.t) : Prop :=
  0 < RingBuf.size rb
  /\ Z.of_nat (length (RingBuf.data rb)) = RingBuf.size rb
  /\ 0 <= RingBuf.index_put rb < RingBuf.size rb
  /\ 0 <= RingBuf.index_get rb < RingBuf.size rb.

(** The number of bytes stored, and the bytes themselves, oldest first:
    the slots from the read position up to the write position. *)
Definition rb_count (rb : RingBuf.t) : Z :=
  (RingBuf.index_put rb - RingBuf.index_get rb) mod RingBuf.size rb.

Definition rb_slot (rb : RingBuf.t) (k : Z) : Z :=
  default 0
    (RingBuf.data rb
       !! Z.to_nat ((RingBuf.index_get rb + k) mod RingBuf.size rb)).

Definition rb_contents (rb : RingBuf.t) : list Z :=
  rb_slot rb <$> seqZ 0 (rb_count rb).

(** [put] each value in turn, collecting the return values. *)
Fixpoint put_all (rb : RingBuf.t) (vs : list Z)
  : result (RingBuf.t * list (option Z)) :=
  match vs with
  | [] => Ok (rb, [])
  | v :: vs' =>
      r <- RingBuf.put rb v ;;
      r' <- put_all (fst r) vs' ;;
      Ok (fst r', snd r :: snd r')
  end.

(** [get] [n] times, collecting the return values. *)
Fixpoint get_n (rb : RingBuf.t) (n : nat)
  : result (RingBuf.t * list (option Z)) :=
  match n with
  | O => Ok (rb, [])
  | S n' =>
      r <- RingBuf.get rb ;;
      r' <- get_n (fst r) n' ;;
      Ok (fst r', snd r :: snd r')
  end.

(** Starting from the buffer [rb0]: putting capacity - 1 bytes succeeds each
    time and leaves the buffer not empty; one more [put] returns [None] and
    changes nothing; as many [get]s return the bytes in the order they were
    put; after them [get] returns [None] and the buffer is empty. *)
Definition fifo_contract (rb0 : RingBuf.t) : Prop :=
  forall vs : list Z,
    Z.of_nat (length vs) = RingBuf.size rb0 - 1 ->
    Forall is_byte vs ->
    exists rb1 rb2,
      put_all rb0 vs = Ok (rb1, Some <$> vs)
      /\ RingBuf.is_empty rb1 = false
      /\ (forall v, RingBuf.put rb1 v = Ok (rb1, None))
      /\ get_n rb1 (length vs) = Ok (rb2, Some <$> vs)
      /\ RingBuf.get rb2 = Ok (rb2, None)
      /\ RingBuf.is_empty rb2 = true.

(** The application's assignments [self.rb = rb] and
    [self.rx_data = rx_data], without which the receive path of
    [MIDIInterface] has nothing to read. *)
Definition attach `{Framework} (self : MIDIInterface.t) (rb : RingBuf.t)
  (rx_data : list Z) : MIDIInterface.t :=
  {| MIDIInterface._num_rx := MIDIInterface._num_rx self;
     MIDIInterface._num_tx := MIDIInterface._num_tx self;
     MIDIInterface.ep_out := MIDIInterface.ep_out self;
     MIDIInterface.ep_in := MIDIInterface.ep_in self;
     MIDIInterface._rx_buf := MIDIInterface._rx_buf self;
     MIDIInterface.rb := Some rb;
     MIDIInterface.rx_data := Some rx_data |}.

(** A transfer submitted by [_poll_rx_endpoint] for [read]. *)
Definition rx_transfer (x : xfer) : Prop := xfer_cb x = Some _cb_rx_cb.

Definition is_rx_transfer (x : xfer) : bool :=
  match xfer_cb x with
  | Some _cb_rx_cb => true
  | _ => false
  end.

(** The number of receive transfers among the transfers in flight. *)
Fixpoint count_rx (xs : list xfer) : nat :=
  match xs with
  | [] => O
  | x :: xs' => ((if is_rx_transfer x then 1 else 0) + count_rx xs')%nat
  end.

(** An interface that has been enumerated: [get_endpoint_descriptors] has
    assigned its endpoints. *)
Definition enumerated (self : CDCDataInterface.t) : Prop :=
  is_Some (CDCDataInterface.ep_in self)
  /\ is_Some (CDCDataInterface.ep_out self).

(** During a [read(nbytes)] that started when [base] had been delivered:
    the accumulation buffer holds the payloads delivered since, and
    [rx_nbytes] is its length. *)
Definition read_inv (base : list (list Z)) (nbytes : Z) (size : nat)
  (w : CDCDataInterface.world) : Prop :=
  exists new : list (list Z),
    CDCDataInterface.delivered w = base ++ new
    /\ CDCDataInterface.total_rx (CDCDataInterface.itf w) = Some (concat new)
    /\ CDCDataInterface.rx_nbytes (CDCDataInterface.itf w)
       = Some (Z.of_nat (length (concat new)))
    /\ CDCDataInterface.rx_nbytes_requested (CDCDataInterface.itf w)
       = Some nbytes
    /\ length (CDCDataInterface.rx_buf (CDCDataInterface.itf w)) = size
    /\ is_Some (CDCDataInterface.ep_out (CDCDataInterface.itf w))
    /\ Forall (fun p => (length p <= size)%nat) new.

(** While a [read(nbytes)] runs with [k] receive transfers of earlier reads
    still in flight beside its own: every receive transfer in flight can
    still add one buffer to the accumulation, and a new one is submitted
    only while fewer than [nbytes] bytes have accumulated. *)
Definition read_bounded_stale (nbytes : Z) (size : nat) (k : nat)
  (w : CDCDataInterface.world) : Prop :=
  exists n,
    CDCDataInterface.rx_nbytes (CDCDataInterface.itf w) = Some n
    /\ (count_rx (CDCDataInterface.in_flight w) <= S k)%nat
    /\ n + Z.of_nat (count_rx (CDCDataInterface.in_flight w)) * Z.of_nat size
       <= nbytes - 1 + Z.of_nat (S k) * Z.of_nat size.

(** The returned buffer is never longer than [nbytes]. *)
Definition read_never_exceeds (w : CDCDataInterface.world) (nbytes : Z)
  (periods : list (list (Z * list Z))) : Prop :=
  forall w' buf,
    CDCDataInterface.read w nbytes periods = Ok (w', buf) ->
    Z.of_nat (length buf) <= nbytes.

(** A data interface enumerated at endpoint base address 0 on the sample
    framework, with nothing in flight. *)
Definition sample_data_world : CDCDataInterface.world :=
  CDCDataInterface.World
    (fst (@CDCDataInterface.get_endpoint_descriptors sample_framework
            (CDCDataInterface.__init__ 1) 0 0)) [] [].

(** A use of the ring buffer, and a run of uses collecting what each
    returned. *)
Inductive rb_op : Type :=
| Put (v : Z)
| Get.

Fixpoint rb_run (rb : RingBuf.t) (ops : list rb_op)
  : result (RingBuf.t * list (option Z)) :=
  match ops with
  | [] => Ok (rb, [])
  | op :: ops' =>
      r <- match op with
           | Put v => RingBuf.put rb v
           | Get => RingBuf.get rb
           end ;;
      r' <- rb_run (fst r) ops' ;;
      Ok (fst r', snd r :: snd r')
  end.

(** The reference the ring buffer is compared with: a queue holding at most
    [cap] values, which refuses a value when it is full. *)
Fixpoint queue_run (cap : Z) (q : list Z) (ops : list rb_op)
  : list Z * list (option Z) :=
  match ops with
  | [] => (q, [])
  | Put v :: ops' =>
      if Z.of_nat (length q) <? cap then
        let r := queue_run cap (q ++ [v]) ops' in (fst r, Some v :: snd r)
      else
        let r := queue_run cap q ops' in (fst r, None :: snd r)
  | Get :: ops' =>
      match q with
      | x :: q' =>
          let r := queue_run cap q' ops' in (fst r, Some x :: snd r)
      | [] =>
          let r := queue_run cap [] ops' in (fst r, None :: snd r)
      end
  end.

Definition op_is_byte (op : rb_op) : Prop :=
  match op with
  | Put v => is_byte v
  | Get => True
  end.

(** The jack descriptors come in pairs, an IN jack and then an OUT jack of
    the other jack type whose single input pin is fed by that IN jack. *)
Fixpoint jacks_paired (jl : list jack) : Prop :=
  match jl with
  | [] => True
  | MIDI_IN_JACK ty_in id_in :: MIDI_OUT_JACK ty_out _ src _ :: rest =>
      src = id_in /\ ty_in <> ty_out /\ jacks_paired rest
  | _ => False
  end.

Definition jack_id (j : jack) : Z :=
  match j with
  | MIDI_IN_JACK _ id => id
  | MIDI_OUT_JACK _ id _ _ => id
  end.

(** The event is the DATA stage of a SET_LINE_CODING class request. *)
Definition decodes_line_coding `{Framework} (e : control_event) : Prop :=
  match e with
  | Handle stage request =>
      stage = STAGE_DATA /\ is_class_request request
      /\ CDCControlInterface.bRequest request = _SET_LINE_CODING_REQ
  | _ => False
  end.

(** * Properties *)

(** ** The error monad and [ustruct] *)

Lemma for_each_app {A X : Type} (xs ys : list X) (body : X -> A -> result A)
  (acc : A) :
  for_each (xs ++ ys) body acc
  = (acc' <- for_each xs body acc ;; for_each ys body acc').
Proof.
  revert acc. induction xs as [|x xs IH]; intros acc; simpl; [done|].
  destruct (body x acc); simpl; auto.
Qed.

(** A loop whose body appends a chunk that depends on the index alone
    appends the chunks in order. *)
Lemma for_each_append {X B : Type} (chunk : X -> list B)
  (body : X -> list B -> result (list B)) (xs : list X) (acc : list B) :
  (forall x a, body x a = Ok (a ++ chunk x)) ->
  for_each xs body acc = Ok (acc ++ concat (chunk <$> xs)).
Proof.
  intros Hbody. revert acc.
  induction xs as [|x xs IH]; intros acc; csimpl.
  - by rewrite app_nil_r.
  - rewrite Hbody. simpl. rewrite IH. by rewrite <- app_assoc.
Qed.

Lemma pack_repeat_B (args : list Z) :
  pack (repeat B (length args)) args = Ok ((fun v => v mod 256) <$> args).
Proof.
  induction args as [|v args IH]; csimpl; [done|].
  rewrite IH. done.
Qed.

Lemma length_concat_const {X B : Type} (chunk : X -> list B) (n : nat)
  (xs : list X) :
  (forall x, length (chunk x) = n) ->
  length (concat (chunk <$> xs)) = (n * length xs)%nat.
Proof.
  intros Hn. induction xs as [|x xs IH]; csimpl; [lia|].
  rewrite length_app, Hn, IH. lia.
Qed.

(** ** MIDI descriptors and jack numbering *)

Section midi.
Context {F : Framework}.
Import MIDIInterface.

Implicit Types (self : MIDIInterface.t) (idx : Z).

Lemma jack_in_desc_eq (ty id : Z) :
  jack_in_desc ty id = Ok [6; 0x24; 0x02; ty mod 256; id mod 256; 0].
Proof. reflexivity. Qed.

Lemma jack_out_desc_eq (ty id src pin : Z) :
  jack_out_desc ty id src pin
  = Ok [9; 0x24; 0x03; ty mod 256; id mod 256; 1; src mod 256;
        pin mod 256; 0].
Proof. reflexivity. Qed.

Lemma rx_side_eq self idx (acc : list Z) :
  rx_side self idx acc = Ok (acc ++ rx_chunk self idx).
Proof.
  unfold rx_side, connection_ids.
  rewrite jack_in_desc_eq, jack_out_desc_eq. simpl bind.
  by rewrite <- app_assoc.
Qed.

Lemma tx_side_eq self idx (acc : list Z) :
  tx_side self idx acc = Ok (acc ++ tx_chunk self idx).
Proof.
  unfold tx_side, connection_ids.
  rewrite jack_in_desc_eq, jack_out_desc_eq. simpl bind.
  by rewrite <- app_assoc.
Qed.

(** The two loops always run to completion, and [jacks] is the chunks of
    the rx connections followed by those of the tx connections. *)
Lemma jacks_eq self :
  jacks self
  = Ok (concat (rx_chunk self <$> range (_num_rx self))
        ++ concat (tx_chunk self <$> range (_num_tx self))).
Proof.
  unfold jacks.
  rewrite (for_each_append (rx_chunk self)) by apply rx_side_eq.
  simpl bind.
  by rewrite (for_each_append (tx_chunk self)) by apply tx_side_eq.
Qed.

Lemma length_jacks self (js : list Z) :
  jacks self = Ok js ->
  Z.of_nat (length js)
  = 15 * (Z.max 0 (_num_rx self) + Z.max 0 (_num_tx self)).
Proof.
  rewrite jacks_eq. intros [= <-].
  rewrite length_app.
  rewrite (length_concat_const _ 15) by done.
  rewrite (length_concat_const _ 15) by done.
  unfold range. rewrite !length_seqZ. lia.
Qed.

Lemma cs_ms_interface_eq self :
  cs_ms_interface self
  = Ok ([7; 0x24; 0x01; 0x00; 0x01]
        ++ le_bytes 2 (7 + 30 * (_num_rx self + _num_tx self))).
Proof.
  unfold cs_ms_interface, _JACK_IN_DESC_LEN, _JACK_OUT_DESC_LEN.
  replace (2 * (6 + 9) * (_num_rx self + _num_tx self))
    with (30 * (_num_rx self + _num_tx self)) by lia.
  reflexivity.
Qed.

Lemma parse_jacks_chunks self (l1 l2 : list Z) :
  parse_jacks (concat (rx_chunk self <$> l1) ++ concat (tx_chunk self <$> l2))
  = Some (concat (rx_connection self <$> l1)
          ++ concat (tx_connection self <$> l2)).
Proof.
  induction l1 as [|i l1 IH]; csimpl.
  - induction l2 as [|i l2 IH]; csimpl; [done|].
    by rewrite IH.
  - by rewrite IH.
Qed.

Lemma embedded_in_ids_connections self (l1 l2 : list Z) :
  embedded_in_ids (concat (rx_connection self <$> l1)
                   ++ concat (tx_connection self <$> l2))
  = (fun v => v mod 256) <$> (_emb_id self false <$> l1).
Proof.
  induction l1 as [|i l1 IH]; csimpl.
  - induction l2 as [|i l2 IH]; csimpl; done.
  - by rewrite IH.
Qed.

Lemma embedded_out_ids_connections self (l1 l2 : list Z) :
  embedded_out_ids (concat (rx_connection self <$> l1)
                    ++ concat (tx_connection self <$> l2))
  = (fun v => v mod 256) <$> (_emb_id self true <$> l2).
Proof.
  induction l1 as [|i l1 IH]; csimpl.
  - induction l2 as [|i l2 IH]; csimpl; [done|]. by rewrite IH.
  - done.
Qed.

Lemma cs_endpoint_eq self (is_tx : bool) (n : Z) :
  cs_endpoint self is_tx n
  = Ok ([(4 + n) mod 256; 0x25; 0x01; n mod 256]
        ++ ((fun v => v mod 256) <$> (_emb_id self is_tx <$> range n))).
Proof.
  unfold cs_endpoint. cbn [app pack calcsize1 le_bytes].
  replace (Z.to_nat n) with (length (_emb_id self is_tx <$> range n))
    by (unfold range; by rewrite length_fmap, length_seqZ).
  rewrite pack_repeat_B. reflexivity.
Qed.

Lemma get_itf_descriptor_eq self (num_eps itf_idx str_idx : Z) :
  let super :=
    super_get_itf_descriptor
      (_INTERFACE_CLASS_AUDIO, _INTERFACE_SUBCLASS_AUDIO_MIDISTREAMING,
       _PROTOCOL_NONE) num_eps itf_idx str_idx in
  get_itf_descriptor self num_eps itf_idx str_idx
  = Ok (fst super
        ++ ([7; 0x24; 0x01; 0x00; 0x01]
            ++ le_bytes 2 (7 + 30 * (_num_rx self + _num_tx self)))
        ++ (concat (rx_chunk self <$> range (_num_rx self))
            ++ concat (tx_chunk self <$> range (_num_tx self))),
        snd super).
Proof.
  intros super. unfold get_itf_descriptor. fold super.
  destruct super as [desc strs].
  by rewrite cs_ms_interface_eq, jacks_eq.
Qed.

(** The declared total length, whenever it fits its 16-bit field, is 7
    plus twice the byte length of the jack descriptors emitted. *)
Lemma wTotalLength_declared self (header js : list Z) :
  0 <= _num_rx self -> 0 <= _num_tx self ->
  7 + 30 * (_num_rx self + _num_tx self) < 65536 ->
  cs_ms_interface self = Ok header -> jacks self = Ok js ->
  le_int (skipn 5 header) = 7 + 2 * Z.of_nat (length js).
Proof.
  intros Hrx Htx Hfit Hh Hj.
  rewrite (length_jacks _ _ Hj).
  rewrite cs_ms_interface_eq in Hh. injection Hh as <-.
  cbn [app skipn le_bytes le_int].
  set (v := 7 + 30 * (_num_rx self + _num_tx self)) in *.
  rewrite (Z.mod_small (v / 256)) by (split; [apply Z.div_pos|apply Z.div_lt_upper_bound]; lia).
  pose proof (Z.div_mod v 256). lia.
Qed.

(** C1, at numRx = numTx = 1: the interface descriptor is the framework's
    descriptor, the 7-byte MS header and 30 bytes of jack descriptors (one
    6-byte Jack-In and one 9-byte Jack-Out per connection), but the
    header's wTotalLength field holds 67, not 7 + 30 = 37. *)
Theorem wTotalLength_counts_jacks_twice :
  let self := __init__ 1 1 in
  exists header js jl : _,
    cs_ms_interface self = Ok header
    /\ jacks self = Ok js
    /\ (forall num_eps itf_idx str_idx,
          exists desc strs,
            get_itf_descriptor self num_eps itf_idx str_idx
            = Ok (desc ++ header ++ js, strs))
    /\ length header = 7%nat
    /\ parse_jacks js = Some jl
    /\ jacks_length jl = 30
    /\ Z.of_nat (length js) = 30
    /\ le_int (skipn 5 header) = 67
    /\ le_int (skipn 5 header) <> 7 + Z.of_nat (length js).
Proof.
  intros self.
  exists [7; 0x24; 0x01; 0x00; 0x01; 67; 0],
    (rx_chunk self 0 ++ tx_chunk self 0),
    (rx_connection self 0 ++ tx_connection self 0).
  repeat split; try reflexivity.
  - intros num_eps itf_idx str_idx.
    eexists _, _. rewrite get_itf_descriptor_eq. reflexivity.
  - discriminate.
Qed.

Lemma emb_id_formula self (is_tx : bool) idx :
  _emb_id self is_tx idx
  = 1 + 2 * (idx + (if is_tx then _num_rx self else 0)).
Proof. unfold _emb_id. destruct is_tx; simpl Z.b2z; lia. Qed.

Lemma emb_id_inj self (is_tx : bool) : Inj eq eq (_emb_id self is_tx).
Proof. intros i j. rewrite !emb_id_formula. lia. Qed.

Lemma elem_of_rx_emb_ids self (id : Z) :
  id ∈ rx_emb_ids self
  <-> exists idx, id = 1 + 2 * idx /\ 0 <= idx < _num_rx self.
Proof.
  unfold rx_emb_ids, range. rewrite list_elem_of_fmap.
  setoid_rewrite elem_of_seqZ. setoid_rewrite emb_id_formula.
  split; intros (idx & ? & ?); exists idx; split; lia.
Qed.

Lemma elem_of_tx_emb_ids self (id : Z) :
  id ∈ tx_emb_ids self
  <-> exists idx, id = 1 + 2 * (idx + _num_rx self)
                  /\ 0 <= idx < _num_tx self.
Proof.
  unfold tx_emb_ids, range. rewrite list_elem_of_fmap.
  setoid_rewrite elem_of_seqZ. setoid_rewrite emb_id_formula.
  split; intros (idx & ? & ?); exists idx; split; lia.
Qed.

(** C2: [_emb_id] is 1 + 2*(idx + (numRx if tx else 0)); the embedded IDs
    generated for numRx, numTx >= 0 are all odd, pairwise distinct and
    numRx + numTx in number; each connection's external ID is its
    embedded ID plus one; every rx ID is below every tx ID. *)
Theorem emb_id_topology self :
  0 <= _num_rx self -> 0 <= _num_tx self ->
  (forall (is_tx : bool) idx,
      _emb_id self is_tx idx
      = 1 + 2 * (idx + (if is_tx then _num_rx self else 0)))
  /\ Forall (fun id => Z.odd id = true) (rx_emb_ids self ++ tx_emb_ids self)
  /\ NoDup (rx_emb_ids self ++ tx_emb_ids self)
  /\ Z.of_nat (length (rx_emb_ids self ++ tx_emb_ids self))
     = _num_rx self + _num_tx self
  /\ (forall (is_tx : bool) idx emb_id ext_id pin,
        connection_ids self is_tx idx = (emb_id, ext_id, pin) ->
        emb_id = _emb_id self is_tx idx /\ ext_id = emb_id + 1)
  /\ (forall r t, In r (rx_emb_ids self) -> In t (tx_emb_ids self) -> r < t).
Proof.
  intros Hrx Htx. repeat apply conj.
  - apply emb_id_formula.
  - apply Forall_app. split; apply Forall_fmap, Forall_forall;
      intros idx _; simpl; rewrite emb_id_formula;
      by rewrite Z.odd_add_mul_2.
  - apply NoDup_app. repeat apply conj.
    + apply NoDup_fmap_2; [apply emb_id_inj | apply NoDup_seqZ].
    + intros id [i [-> Hi]]%elem_of_rx_emb_ids [j [Hj ?]]%elem_of_tx_emb_ids.
      lia.
    + apply NoDup_fmap_2; [apply emb_id_inj | apply NoDup_seqZ].
  - unfold rx_emb_ids, tx_emb_ids, range.
    rewrite length_app, !length_fmap, !length_seqZ. lia.
  - unfold connection_ids. intros is_tx idx emb_id ext_id pin [= <- <- _].
    done.
  - intros r t [i [-> Hi]]%list_elem_of_In%elem_of_rx_emb_ids
               [j [-> Hj]]%list_elem_of_In%elem_of_tx_emb_ids.
    lia.
Qed.

Lemma get_endpoint_descriptors_eq self (ep_addr str_idx : Z) :
  let ep_out := Z.lor (ep_addr + 1) EP_OUT_FLAG in
  let ep_in := ep_addr + 2 in
  exists self',
    get_endpoint_descriptors self ep_addr str_idx
    = Ok (self',
          (endpoint_descriptor ep_out bulk 64 0
           ++ ([(4 + _num_rx self) mod 256; 0x25; 0x01; _num_rx self mod 256]
               ++ ((fun v => v mod 256) <$> rx_emb_ids self))
           ++ endpoint_descriptor ep_in bulk 64 0
           ++ ([(4 + _num_tx self) mod 256; 0x25; 0x01; _num_tx self mod 256]
               ++ ((fun v => v mod 256) <$> tx_emb_ids self)),
           [], (ep_out, ep_in)))
    /\ MIDIInterface.ep_out self' = Some ep_out
    /\ MIDIInterface.ep_in self' = Some ep_in.
Proof.
  intros ep_out ep_in. unfold get_endpoint_descriptors.
  rewrite !cs_endpoint_eq. simpl bind. eexists. split; [reflexivity|done].
Qed.

Lemma cs_lists_intro (n : Z) (ids : list Z) :
  0 <= n <= 251 -> length ids = Z.to_nat n ->
  cs_lists ([(4 + n) mod 256; 0x25; 0x01; n mod 256] ++ ids) ids.
Proof.
  intros Hn Hlen. split; [reflexivity|].
  simpl. rewrite Hlen, Z.mod_small by lia. f_equal. lia.
Qed.

(** C3, for numRx and numTx up to 251: the endpoint descriptors are the
    bulk OUT endpoint followed by a class-specific descriptor listing, in
    order, the IDs of the embedded rx jacks emitted in the interface
    descriptor, then the bulk IN endpoint followed by one listing the
    embedded tx jacks; each class-specific descriptor's length field is 4
    plus the number of IDs it lists. *)
Theorem endpoint_descriptors_list_jacks self :
  0 <= _num_rx self <= 251 -> 0 <= _num_tx self <= 251 ->
  endpoint_jacks_agree self.
Proof.
  intros Hrx Htx num_eps itf_idx str_idx ep_addr.
  destruct (get_endpoint_descriptors_eq self ep_addr str_idx)
    as (self' & Hep & _).
  eexists _, _, _, _, _, self'. cbv zeta.
  split; [apply get_itf_descriptor_eq|].
  split; [reflexivity|].
  split; [apply parse_jacks_chunks|].
  split; [exact Hep|].
  rewrite embedded_in_ids_connections, embedded_out_ids_connections.
  split; apply cs_lists_intro; try done;
    unfold rx_emb_ids, tx_emb_ids, range;
    by rewrite !length_fmap, length_seqZ.
Qed.

End midi.

(** The theorem at numRx = 2, numTx = 1. *)
Lemma endpoint_descriptors_list_jacks_witness :
  (0 <= 2 <= 251 /\ 0 <= 1 <= 251)
  /\ @endpoint_jacks_agree sample_framework (MIDIInterface.__init__ 2 1).
Proof.
  split; [lia|].
  apply (@endpoint_descriptors_list_jacks sample_framework
           (MIDIInterface.__init__ 2 1)); simpl; lia.
Defined.

(** With 252 rx connections the length field of the OUT endpoint's
    class-specific descriptor holds (4 + 252) mod 256 = 0 while the
    descriptor lists 252 jack IDs. *)
Lemma endpoint_descriptors_252_rx_disagree :
  ~ @endpoint_jacks_agree sample_framework (MIDIInterface.__init__ 252 0).
Proof.
  intros Hagree.
  destruct (Hagree 0 0 0 0)
    as (header & js & cs_out & cs_in & jl & self' & _ & _ & _ & Hep
        & [_ Hhead] & _).
  destruct (@get_endpoint_descriptors_eq sample_framework
              (MIDIInterface.__init__ 252 0) 0 0) as (self'' & Hep' & _).
  rewrite Hep' in Hep. injection Hep as _ Hbytes.
  destruct cs_out as [|b cs_out]; [discriminate|].
  simpl in Hbytes. injection Hbytes as Hb _.
  simpl in Hhead. injection Hhead as Hhead.
  change ((4 + 252) mod 256) with 0 in Hb. lia.
Qed.

(** The theorem at numRx = 3, numTx = 2. *)
Lemma emb_id_topology_witness :
  let self := MIDIInterface.__init__ 3 2 in
  (0 <= 3 /\ 0 <= 2)
  /\ @rx_emb_ids sample_framework self ++ @tx_emb_ids sample_framework self
     = [1; 3; 5; 7; 9]
  /\ NoDup (@rx_emb_ids sample_framework self
            ++ @tx_emb_ids sample_framework self).
Proof.
  intros self. split; [lia|]. split; [reflexivity|].
  apply (@emb_id_topology sample_framework self); simpl; lia.
Defined.

(** ** CDC control interface *)

Section cdc_control.
Context {F : Framework}.
Import CDCControlInterface.

Implicit Types (self : CDCControlInterface.t) (request : request).

Lemma cdc_get_itf_descriptor_eq self (num_eps itf_idx str_idx : Z) :
  let super :=
    super_get_itf_descriptor
      (_INTERFACE_CLASS_CDC, _INTERFACE_SUBCLASS_CDC, _PROTOCOL_NONE)
      num_eps itf_idx str_idx in
  get_itf_descriptor self num_eps itf_idx str_idx
  = Ok ([8; 0x0b; itf_idx mod 256; 2; 2; 2; 0; 0]
        ++ fst super
        ++ [5; 0x24; 0; 0x20; 0x01]
        ++ [5; 0x24; 1; 0; 1]
        ++ [4; 0x24; 2; 0x06]
        ++ [5; 0x24; 6; itf_idx mod 256; (itf_idx / 256) mod 256],
        snd super).
Proof.
  intros super. unfold get_itf_descriptor. fold super.
  destruct super as [itf strs]. cbn [pack calcsize1 le_bytes bind app fst snd].
  by rewrite <- !app_assoc.
Qed.

(** C4, at itf_idx = 0 and itf_idx = 2: the descriptor is the IAD, the
    framework's interface descriptor, and the Header, Call-Management,
    Abstract-Control and Union functional descriptors; but the
    Call-Management descriptor's bDataInterface is the constant 1, and the
    Union descriptor, packed as three bytes and a 16-bit bControlInterface,
    ends in the high byte of itf_idx (0) where bSubordinateInterface0 =
    itf_idx + 1 belongs. *)
Theorem cdc_descriptor_data_interface_numbers self (num_eps str_idx : Z) :
  (exists itf strs,
      get_itf_descriptor self num_eps 0 str_idx
      = Ok ([8; 0x0b; 0; 2; 2; 2; 0; 0] ++ itf
            ++ [5; 0x24; 0; 0x20; 0x01]
            ++ [5; 0x24; 1; 0; 1]
            ++ [4; 0x24; 2; 0x06]
            ++ [5; 0x24; 6; 0; 0], strs))
  /\ (exists itf strs,
      get_itf_descriptor self num_eps 2 str_idx
      = Ok ([8; 0x0b; 2; 2; 2; 2; 0; 0] ++ itf
            ++ [5; 0x24; 0; 0x20; 0x01]
            ++ [5; 0x24; 1; 0; 1]
            ++ [4; 0x24; 2; 0x06]
            ++ [5; 0x24; 6; 2; 0], strs)).
Proof.
  split; eexists _, _; rewrite cdc_get_itf_descriptor_eq; reflexivity.
Qed.

Lemma le_bytes_le_int (bs : list Z) :
  Forall is_byte bs -> le_bytes (length bs) (le_int bs) = bs.
Proof.
  induction 1 as [|b bs Hb _ IH]; [done|].
  unfold is_byte in Hb. cbn [length le_bytes le_int].
  replace ((b + 256 * le_int bs) mod 256) with b
    by (Z.div_mod_to_equations; lia).
  replace ((b + 256 * le_int bs) / 256) with (le_int bs)
    by (Z.div_mod_to_equations; lia).
  by rewrite IH.
Qed.

Lemma le_int_le_bytes (n : nat) (v : Z) :
  le_int (le_bytes n v) = v mod 256 ^ Z.of_nat n.
Proof.
  revert v. induction n as [|n IH]; intros v.
  - simpl. by rewrite Z.mod_1_r.
  - cbn [le_bytes le_int]. rewrite IH.
    rewrite Nat2Z.inj_succ, Z.pow_succ_r by lia.
    rewrite Z.rem_mul_r; [lia | lia | apply Z.pow_pos_nonneg; lia].
Qed.

Lemma handle_setup_class self request :
  is_class_request request ->
  handle_interface_control_xfer self STAGE_SETUP request
  = if bRequest request =? _SET_LINE_CODING_REQ then
      Ok (self, the_line_coding_state, [])
    else if bRequest request =? _GET_LINE_CODING_REQ then
      Ok (self, the_line_coding_state, [])
    else if bRequest request =? _SET_CONTROL_LINE_STATE then
      Ok (with_control_line self
            (py_bool (Z.land (wValue request) 0x1))
            (py_bool (Z.land (wValue request) 0x2)), bytes_value [], [])
    else if bRequest request =? _SEND_BREAK_REQ then
      match break_cb self with
      | Some cb => Ok (self, bytes_value [], [(cb, wValue request)])
      | None => Ok (self, bytes_value [], [])
      end
    else Ok (self, True_value, []).
Proof.
  unfold is_class_request, handle_interface_control_xfer.
  destruct (split_bmRequestType (bmRequestType request)) as [[rcp ty] dir].
  simpl. intros ->. rewrite !Z.eqb_refl. simpl.
  repeat case_match; try done.
  all: rewrite !andb_false_r in *; done.
Qed.

Lemma handle_data_set_line_coding self request (b0 b1 b2 b3 b4 b5 b6 : Z) :
  is_class_request request ->
  bRequest request = _SET_LINE_CODING_REQ ->
  STAGE_SETUP <> STAGE_DATA ->
  line_coding_state self = [b0; b1; b2; b3; b4; b5; b6] ->
  handle_interface_control_xfer self STAGE_DATA request
  = Ok ({| rts := rts self; dtr := dtr self;
           baudrate := Some (le_int [b0; b1; b2; b3]);
           stop_bits := le_int [b4]; parity := le_int [b5];
           data_bits := Some (le_int [b6]);
           break_cb := break_cb self;
           line_coding_state := line_coding_state self |},
        True_value, []).
Proof.
  unfold is_class_request, handle_interface_control_xfer.
  destruct (split_bmRequestType (bmRequestType request)) as [[rcp ty] dir].
  simpl. intros -> -> Hstage Hbuf.
  rewrite !Z.eqb_refl.
  rewrite (proj2 (Z.eqb_neq STAGE_DATA STAGE_SETUP)) by done.
  destruct self; simpl in *; subst. reflexivity.
Qed.

Lemma data_stage_write_full self (wire : list Z) :
  length (line_coding_state self) = length wire ->
  line_coding_state (data_stage_write self wire) = wire.
Proof.
  intros Hlen. unfold data_stage_write. simpl. rewrite Hlen.
  rewrite firstn_all, skipn_all2 by lia. by rewrite app_nil_r.
Qed.

(** C6: for a class-type SET_LINE_CODING transfer, the handler at SETUP
    returns the interface's own 7-byte line-coding buffer; once the DATA
    stage has filled it with a 7-byte record, the handler at DATA stage
    decodes it little-endian into baud rate (uint32), stop bits, parity and
    data bits (one byte each), so that the fields encode back to the record;
    the record of (9600, 1 stop bit, no parity, 8 data bits) gives exactly
    those fields. *)
Theorem set_line_coding_transfer self request (wire : list Z) :
  is_class_request request ->
  bRequest request = _SET_LINE_CODING_REQ ->
  STAGE_SETUP <> STAGE_DATA ->
  length (line_coding_state self) = 7%nat ->
  length wire = 7%nat ->
  Forall is_byte wire ->
  handle_interface_control_xfer self STAGE_SETUP request
  = Ok (self, the_line_coding_state, [])
  /\ exists self',
      handle_interface_control_xfer (data_stage_write self wire)
        STAGE_DATA request
      = Ok (self', True_value, [])
      /\ line_coding_state self' = wire
      /\ baudrate self' = Some (le_int (firstn 4 wire))
      /\ stop_bits self' = nth 4 wire 0
      /\ parity self' = nth 5 wire 0
      /\ data_bits self' = Some (nth 6 wire 0)
      /\ line_coding_consistent self'
      /\ (pack [L; B; B; B] [9600; 0; 0; 8] = Ok wire ->
          baudrate self' = Some 9600 /\ stop_bits self' = 0
          /\ parity self' = 0 /\ data_bits self' = Some 8)
      /\ dtr self' = dtr self /\ rts self' = rts self.
Proof.
  intros Hclass Hreq Hstage Hbuf Hlen Hbytes. split.
  - rewrite handle_setup_class by done. by rewrite Hreq.
  - destruct wire as [|b0 [|b1 [|b2 [|b3 [|b4 [|b5 [|b6 [|? ?]]]]]]]];
      try discriminate Hlen.
    pose proof (data_stage_write_full self [b0; b1; b2; b3; b4; b5; b6]) as Hw.
    rewrite Hbuf in Hw. specialize (Hw eq_refl).
    eexists. split.
    { by apply handle_data_set_line_coding. }
    cbn [line_coding_state baudrate stop_bits parity data_bits dtr rts].
    rewrite Hw. cbn [firstn nth].
    repeat match goal with H : Forall _ (_ :: _) |- _ =>
      apply Forall_cons in H; destruct H as [? H] end.
    unfold is_byte in *.
    split_and!; try (simpl; f_equal; lia); try reflexivity.
    + exists (le_int [b0; b1; b2; b3]), (le_int [b6]).
      cbn [baudrate data_bits stop_bits parity line_coding_state].
      split_and!; try reflexivity.
      pose proof (le_bytes_le_int [b0; b1; b2; b3]) as Hle.
      cbn [length] in Hle.
      cbn [pack bind calcsize1]. rewrite Hle
        by (repeat constructor; unfold is_byte; lia).
      cbn [le_bytes le_int bind app].
      repeat f_equal; Z.div_mod_to_equations; lia.
    + intros [= <- <- <- <- <- <- <-]. done.
Qed.

Lemma py_bool_land_pow2 (w n : Z) :
  0 <= n -> py_bool (Z.land w (2 ^ n)) = Z.testbit w n.
Proof.
  intros Hn. unfold py_bool.
  destruct (Z.testbit w n) eqn:Hbit.
  - apply negb_true_iff, Z.eqb_neq. intros Hz.
    apply (f_equal (fun x => Z.testbit x n)) in Hz.
    rewrite Z.land_spec, Hbit, Z.pow2_bits_true, Z.bits_0 in Hz by done.
    discriminate.
  - apply negb_false_iff, Z.eqb_eq, Z.bits_inj'. intros m Hm.
    rewrite Z.land_spec, Z.bits_0, Z.pow2_bits_eqb by done.
    destruct (Z.eqb_spec n m) as [<-|_]; [by rewrite Hbit|].
    by rewrite andb_false_r.
Qed.

(** C7: a class-type SET_CONTROL_LINE_STATE request at SETUP stage sets dtr
    to bit 0 and rts to bit 1 of the request value, returns an empty
    acknowledgment and leaves the line coding as it was; value 0x3 gives
    (true, true) and value 0x0 gives (false, false). *)
Theorem set_control_line_state self request :
  is_class_request request ->
  bRequest request = _SET_CONTROL_LINE_STATE ->
  exists self',
    handle_interface_control_xfer self STAGE_SETUP request
    = Ok (self', bytes_value [], [])
    /\ dtr self' = Some (Z.testbit (wValue request) 0)
    /\ rts self' = Some (Z.testbit (wValue request) 1)
    /\ line_coding_state self' = line_coding_state self
    /\ baudrate self' = baudrate self
    /\ stop_bits self' = stop_bits self
    /\ parity self' = parity self
    /\ data_bits self' = data_bits self
    /\ (wValue request = 0x3 -> get_control_line self' = (Some true, Some true))
    /\ (wValue request = 0x0 ->
        get_control_line self' = (Some false, Some false)).
Proof.
  intros Hclass Hreq.
  rewrite handle_setup_class, Hreq by done. cbn [Z.eqb Pos.eqb].
  eexists. split; [reflexivity|].
  cbn [with_control_line dtr rts line_coding_state baudrate stop_bits parity
       data_bits get_control_line].
  pose proof (py_bool_land_pow2 (wValue request) 0) as Hdtr.
  pose proof (py_bool_land_pow2 (wValue request) 1) as Hrts.
  change (2 ^ 0) with 1 in Hdtr. change (2 ^ 1) with 2 in Hrts.
  rewrite Hdtr, Hrts by lia.
  split_and!; try reflexivity.
  - by intros ->.
  - by intros ->.
Qed.

(** The handler never fails on an interface whose line-coding buffer has
    its 7 bytes, and it changes the control lines only on a
    SET_CONTROL_LINE_STATE class request at SETUP stage. *)
Lemma handle_keeps_control_line self (stage : Z) request :
  length (line_coding_state self) = 7%nat ->
  ~ sets_control_line (Handle stage request) ->
  exists self' ret calls,
    handle_interface_control_xfer self stage request = Ok (self', ret, calls)
    /\ length (line_coding_state self') = 7%nat
    /\ get_control_line self' = get_control_line self.
Proof.
  intros Hlen Hnot.
  assert (exists fields,
             unpack [L; B; B; B] (line_coding_state self) = Ok fields
             /\ length fields = 4%nat) as (fields & Hunpack & Hfields).
  { unfold unpack. rewrite Hlen. simpl. eauto. }
  unfold sets_control_line, is_class_request in Hnot.
  unfold handle_interface_control_xfer.
  destruct (split_bmRequestType (bmRequestType request)) as [[rcp ty] dir].
  simpl in Hnot. rewrite Hunpack.
  destruct fields as [|f0 [|f1 [|f2 [|f3 [|? ?]]]]]; try discriminate.
  cbn [bind with_line_coding].
  repeat case_match; simplify_eq; eauto 10.
  exfalso. apply Hnot.
  repeat match goal with
         | H : _ && _ = true |- _ => apply andb_true_iff in H; destruct H
         | H : (_ =? _) = true |- _ => apply Z.eqb_eq in H
         end.
  done.
Qed.

(** C10: an interface that has just been constructed, and has handled no
    SET_CONTROL_LINE_STATE request since, reports its control lines as
    (None, None), which is neither (false, false) nor any other pair of
    booleans. *)
Theorem fresh_control_line_unset (events : list control_event) :
  Forall (fun e => ~ sets_control_line e) events ->
  exists self',
    handle_all __init__ events = Ok self'
    /\ get_control_line self' = (None, None)
    /\ forall d r : bool, get_control_line self' <> (Some d, Some r).
Proof.
  assert (forall self,
             length (line_coding_state self) = 7%nat ->
             Forall (fun e => ~ sets_control_line e) events ->
             exists self',
               handle_all self events = Ok self'
               /\ get_control_line self' = get_control_line self) as Hrun.
  { induction events as [|e events IH]; intros self Hlen Hall.
    - by exists self.
    - apply Forall_cons in Hall as [He Hall].
      destruct e as [stage request|payload|cb]; cbn [handle_all].
      + destruct (handle_keeps_control_line self stage request Hlen He)
          as (self1 & ret & calls & -> & Hlen1 & <-).
        by apply IH.
      + destruct (IH (data_stage_write self payload))
          as (self' & Hrun & Hget); [|done|by exists self'].
        unfold data_stage_write. cbn [line_coding_state].
        rewrite length_app, length_skipn, !length_firstn. lia.
      + destruct (IH (set_break_cb self cb))
          as (self' & Hrun & Hget); [done|done|by exists self']. }
  intros Hall. destruct (Hrun __init__ eq_refl Hall) as (self' & -> & Hget).
  exists self'. split_and!; [done|done|].
  intros d r. rewrite Hget. discriminate.
Qed.

End cdc_control.

(** A class-type host-to-device request to the interface. *)
Lemma sample_class_request (b v : Z) :
  @is_class_request sample_framework
    (CDCControlInterface.Request 0x21 b v 0 7).
Proof. reflexivity. Qed.

(** The theorem for the record of 9600 baud, 1 stop bit, no parity and 8 data
    bits, on a fresh interface. *)
Lemma set_line_coding_transfer_witness :
  exists self',
    @CDCControlInterface.handle_interface_control_xfer sample_framework
      (CDCControlInterface.data_stage_write CDCControlInterface.__init__
         [0x80; 0x25; 0; 0; 0; 0; 8])
      2 (CDCControlInterface.Request 0x21 0x20 0 0 7)
    = Ok (self', CDCControlInterface.True_value, [])
    /\ CDCControlInterface.baudrate self' = Some 9600
    /\ CDCControlInterface.data_bits self' = Some 8.
Proof.
  destruct (@set_line_coding_transfer sample_framework
              CDCControlInterface.__init__
              (CDCControlInterface.Request 0x21 0x20 0 0 7)
              [0x80; 0x25; 0; 0; 0; 0; 8])
    as (_ & self' & Hrun & _ & _ & _ & _ & _ & _ & Hfields & _).
  - apply sample_class_request.
  - reflexivity.
  - discriminate.
  - reflexivity.
  - reflexivity.
  - repeat constructor; unfold is_byte; lia.
  - exists self'. split; [exact Hrun|].
    destruct (Hfields eq_refl) as (Hbaud & _ & _ & Hbits). by split.
Defined.

(** The theorem for request value 0x3 on a fresh interface. *)
Lemma set_control_line_state_witness :
  exists self',
    @CDCControlInterface.handle_interface_control_xfer sample_framework
      CDCControlInterface.__init__ 1
      (CDCControlInterface.Request 0x21 0x22 0x3 0 0)
    = Ok (self', CDCControlInterface.bytes_value [], [])
    /\ CDCControlInterface.get_control_line self' = (Some true, Some true).
Proof.
  destruct (@set_control_line_state sample_framework
              CDCControlInterface.__init__
              (CDCControlInterface.Request 0x21 0x22 0x3 0 0))
    as (self' & Hrun & _ & _ & _ & _ & _ & _ & _ & H3 & _).
  - reflexivity.
  - reflexivity.
  - exists self'. split; [exact Hrun|]. by apply H3.
Defined.

(** The theorem for an interface that has served a GET_LINE_CODING request,
    a complete SET_LINE_CODING transfer and a SEND_BREAK request. *)
Lemma fresh_control_line_unset_witness :
  exists self',
    @handle_all sample_framework CDCControlInterface.__init__
      [Handle 1 (CDCControlInterface.Request 0xa1 0x21 0 0 7);
       Handle 1 (CDCControlInterface.Request 0x21 0x20 0 0 7);
       DataStageWrite [0x80; 0x25; 0; 0; 0; 0; 8];
       Handle 2 (CDCControlInterface.Request 0x21 0x20 0 0 7);
       Handle 1 (CDCControlInterface.Request 0x21 0x23 100 0 0)]
    = Ok self'
    /\ CDCControlInterface.get_control_line self' = (None, None).
Proof.
  destruct (@fresh_control_line_unset sample_framework
              [Handle 1 (CDCControlInterface.Request 0xa1 0x21 0 0 7);
               Handle 1 (CDCControlInterface.Request 0x21 0x20 0 0 7);
               DataStageWrite [0x80; 0x25; 0; 0; 0; 0; 8];
               Handle 2 (CDCControlInterface.Request 0x21 0x20 0 0 7);
               Handle 1 (CDCControlInterface.Request 0x21 0x23 100 0 0)])
    as (self' & Hrun & Hget & _).
  - repeat (apply Forall_cons_2 || apply Forall_nil_2); simpl;
      first [ intros (_ & _ & Hreq); discriminate Hreq | intros [] ].
  - by exists self'.
Defined.

(** ** The ring buffer *)

Section ring_buffer.
Import RingBuf.

Implicit Types (rb : RingBuf.t) (v : Z).

Lemma mod_cases (a n : Z) :
  0 < n -> - n <= a < 2 * n ->
  a mod n = if a <? 0 then a + n else if a <? n then a else a - n.
Proof.
  intros Hn Ha. symmetry.
  destruct (Z.ltb_spec a 0); [|destruct (Z.ltb_spec a n)].
  - apply (Z.mod_unique_pos a n (-1)); lia.
  - apply (Z.mod_unique_pos a n 0); lia.
  - apply (Z.mod_unique_pos a n 1); lia.
Qed.

(** Rewrites the modular expressions of a goal about indices into case
    distinctions that [lia] decides. *)
Ltac index_arith :=
  repeat match goal with
         | H : rb_wf _ |- _ => destruct H as (? & ? & ? & ?)
         end;
  unfold rb_count in *; cbn [data size index_put index_get] in *;
  repeat first
    [ match goal with
      | |- context [?a mod ?n] => rewrite (mod_cases a n) by lia
      | H : context [?a mod ?n] |- _ => rewrite (mod_cases a n) in H by lia
      end
    | match goal with
      | |- context [?a <? ?b] => destruct (Z.ltb_spec a b)
      | H : context [?a <? ?b] |- _ => destruct (Z.ltb_spec a b)
      end ];
  try lia.

Lemma rb_count_range rb : rb_wf rb -> 0 <= rb_count rb < size rb.
Proof. intros Hwf. index_arith. Qed.

Lemma rb_count_0 rb :
  rb_wf rb -> rb_count rb = 0 <-> index_get rb = index_put rb.
Proof. intros Hwf. split; intros Heq; index_arith. Qed.

Lemma length_rb_contents rb :
  rb_wf rb -> Z.of_nat (length (rb_contents rb)) = rb_count rb.
Proof.
  intros Hwf. pose proof (rb_count_range rb Hwf).
  unfold rb_contents. rewrite length_fmap, length_seqZ. lia.
Qed.

Lemma is_empty_true rb : is_empty rb = true <-> index_get rb = index_put rb.
Proof. unfold is_empty. apply Z.eqb_eq. Qed.

Lemma norm_index_in_range (l : list Z) (i : Z) :
  0 <= i < Z.of_nat (length l) -> norm_index l i = Ok (Z.to_nat i).
Proof.
  intros Hi. unfold norm_index.
  destruct (Z.ltb_spec i 0); [lia|].
  destruct (Z.leb_spec 0 i); [|lia].
  destruct (Z.ltb_spec i (Z.of_nat (length l))); [done|lia].
Qed.

(** [get] returns [None] exactly when the read position is the write
    position, and then changes nothing. *)
Lemma get_None_iff rb :
  (exists rb', get rb = Ok (rb', None)) <-> index_get rb = index_put rb.
Proof.
  unfold get. destruct (Z.eqb_spec (index_get rb) (index_put rb)) as [Heq|Hne].
  - split; [done|]. intros _. by exists rb.
  - split; [|done]. intros [rb' Hget].
    destruct (getitem (data rb) (index_get rb)); [|done].
    simpl in Hget.
    destruct (py_mod (index_get rb + 1) (size rb)); done.
Qed.

Lemma get_empty rb :
  index_get rb = index_put rb -> get rb = Ok (rb, None).
Proof. intros Heq. unfold get. by rewrite Heq, Z.eqb_refl. Qed.

(** A [put] into a full buffer returns [None] and changes nothing. *)
Lemma put_full rb v :
  rb_wf rb -> rb_count rb = size rb - 1 -> put rb v = Ok (rb, None).
Proof.
  intros Hwf Hfull. unfold put, py_mod.
  destruct (Z.eqb_spec (size rb) 0) as [Hz|_]; [destruct Hwf; lia|].
  simpl bind.
  destruct (Z.eqb_spec (index_get rb) ((index_put rb + 1) mod size rb))
    as [_|Hne]; [done|].
  exfalso. apply Hne. index_arith.
Qed.

(** A [put] into a buffer that is not full stores the byte behind the
    bytes already there. *)
Lemma put_not_full rb v :
  rb_wf rb -> rb_count rb < size rb - 1 -> is_byte v ->
  exists rb',
    put rb v = Ok (rb', Some v)
    /\ rb_wf rb' /\ size rb' = size rb
    /\ rb_count rb' = rb_count rb + 1
    /\ rb_contents rb' = rb_contents rb ++ [v].
Proof.
  intros Hwf Hroom Hv.
  pose proof (rb_count_range rb Hwf) as Hcount.
  unfold put, py_mod.
  destruct (Z.eqb_spec (size rb) 0) as [Hz|_]; [destruct Hwf; lia|].
  simpl bind.
  destruct (Z.eqb_spec (index_get rb) ((index_put rb + 1) mod size rb))
    as [Heq|Hne]; [exfalso; index_arith|].
  unfold setitem. rewrite norm_index_in_range by (destruct Hwf; lia).
  simpl. eexists. split; [reflexivity|].
  assert (rb_wf
            {| data := <[Z.to_nat (index_put rb) := v mod 256]> (data rb);
               size := size rb;
               index_put := (index_put rb + 1) mod size rb;
               index_get := index_get rb |}) as Hwf'.
  { destruct Hwf as (? & ? & ? & ?). unfold rb_wf. simpl.
    rewrite length_insert.
    pose proof (Z.mod_pos_bound (index_put rb + 1) (size rb)).
    split_and!; lia. }
  assert (((index_put rb + 1) mod size rb - index_get rb) mod size rb
          = rb_count rb + 1) as Hcount'.
  { clear Hwf'. index_arith. }
  split; [exact Hwf'|]. split; [done|]. split; [exact Hcount'|].
  unfold rb_contents at 1. unfold rb_count at 1. simpl.
  rewrite Hcount'. rewrite seqZ_app by lia. rewrite fmap_app.
  f_equal.
  - apply Forall_fmap_ext, Forall_seqZ. intros k Hk.
    unfold rb_slot. simpl.
    rewrite list_lookup_insert_ne; [done|].
    intros Heq%Z2Nat.inj; [|destruct Hwf; lia|apply Z.mod_pos_bound; destruct Hwf; lia].
    clear Hwf'. index_arith.
  - rewrite seqZ_cons, seqZ_nil by lia. csimpl.
    unfold rb_slot. simpl.
    replace ((index_get rb + (0 + rb_count rb)) mod size rb)
      with (index_put rb) by (clear Hwf'; index_arith).
    rewrite list_lookup_insert_eq by (destruct Hwf; lia).
    simpl. unfold is_byte in Hv. by rewrite Z.mod_small.
Qed.

(** A [get] from a buffer that is not empty returns its oldest byte and
    keeps the others. *)
Lemma get_not_empty rb :
  rb_wf rb -> index_get rb <> index_put rb ->
  exists rb' x,
    get rb = Ok (rb', Some x)
    /\ rb_wf rb' /\ size rb' = size rb
    /\ rb_count rb' = rb_count rb - 1
    /\ rb_contents rb = x :: rb_contents rb'.
Proof.
  intros Hwf Hne.
  pose proof (rb_count_range rb Hwf) as Hcount.
  assert (rb_count rb <> 0) as Hpos by (by rewrite rb_count_0).
  unfold get, getitem, py_mod.
  destruct (Z.eqb_spec (index_get rb) (index_put rb)) as [|_]; [done|].
  destruct (Z.eqb_spec (size rb) 0) as [Hz|_]; [destruct Hwf; lia|].
  rewrite norm_index_in_range by (destruct Hwf; lia). simpl bind.
  destruct (lookup_lt_is_Some_2 (data rb) (Z.to_nat (index_get rb)))
    as [x Hx]; [destruct Hwf; lia|].
  rewrite Hx. simpl bind. eexists _, x. split; [reflexivity|].
  assert (rb_wf {| data := data rb; size := size rb;
                   index_put := index_put rb;
                   index_get := (index_get rb + 1) mod size rb |}) as Hwf'.
  { destruct Hwf as (? & ? & ? & ?). unfold rb_wf. simpl.
    pose proof (Z.mod_pos_bound (index_get rb + 1) (size rb)).
    split_and!; lia. }
  assert ((index_put rb - (index_get rb + 1) mod size rb) mod size rb
          = rb_count rb - 1) as Hcount'.
  { clear Hwf'. index_arith. }
  split; [exact Hwf'|]. split; [done|]. split; [exact Hcount'|].
  unfold rb_contents. unfold rb_count at 2. simpl. rewrite Hcount'.
  rewrite (seqZ_cons 0 (rb_count rb)) by lia. csimpl. f_equal.
  - unfold rb_slot. rewrite Z.add_0_r, Z.mod_small by (destruct Hwf; lia).
    by rewrite Hx.
  - change (Z.succ 0) with (1 + 0). rewrite <- fmap_add_seqZ.
    rewrite <- list_fmap_compose.
    apply Forall_fmap_ext, Forall_seqZ. intros k Hk.
    unfold rb_slot, compose. simpl.
    rewrite Z.add_mod_idemp_l by (destruct Hwf; lia).
    by rewrite Z.add_assoc.
Qed.

Lemma put_all_room rb (vs : list Z) :
  rb_wf rb ->
  rb_count rb + Z.of_nat (length vs) <= size rb - 1 ->
  Forall is_byte vs ->
  exists rb',
    put_all rb vs = Ok (rb', Some <$> vs)
    /\ rb_wf rb' /\ size rb' = size rb
    /\ rb_count rb' = rb_count rb + Z.of_nat (length vs)
    /\ rb_contents rb' = rb_contents rb ++ vs.
Proof.
  revert rb. induction vs as [|v vs IH]; intros rb Hwf Hroom Hbytes.
  - exists rb. simpl. rewrite app_nil_r. split_and!; try done. lia.
  - apply Forall_cons in Hbytes as [Hv Hbytes]. simpl length in Hroom.
    destruct (put_not_full rb v Hwf) as (rb1 & Hput & Hwf1 & Hsize1 & Hc1 & Hk1);
      [lia|done|].
    destruct (IH rb1 Hwf1) as (rb' & Hall & Hwf' & Hsize' & Hc' & Hk');
      [lia|done|].
    exists rb'. cbn [put_all]. rewrite Hput. cbn [bind fst snd].
    rewrite Hall. cbn [bind fst snd].
    split_and!; try done; try lia.
    + simpl length. lia.
    + rewrite Hk', Hk1. by rewrite <- app_assoc.
Qed.

Lemma get_n_contents rb (xs ys : list Z) :
  rb_wf rb -> rb_contents rb = xs ++ ys ->
  exists rb',
    get_n rb (length xs) = Ok (rb', Some <$> xs)
    /\ rb_wf rb' /\ size rb' = size rb /\ rb_contents rb' = ys.
Proof.
  revert rb. induction xs as [|x xs IH]; intros rb Hwf Hk.
  - by exists rb.
  - assert (index_get rb <> index_put rb) as Hne.
    { rewrite <- rb_count_0, <- length_rb_contents, Hk by done.
      simpl. lia. }
    destruct (get_not_empty rb Hwf Hne)
      as (rb1 & x' & Hget & Hwf1 & Hsize1 & _ & Hk1).
    rewrite Hk1 in Hk. injection Hk as -> Hk.
    destruct (IH rb1 Hwf1 Hk) as (rb' & Hall & Hwf' & Hsize' & Hk').
    exists rb'. cbn [get_n length]. rewrite Hget. cbn [bind fst snd].
    rewrite Hall. cbn [bind fst snd]. split_and!; try done. lia.
Qed.

Lemma init_wf (n : Z) :
  0 < n ->
  exists rb,
    __init__ n = Ok rb /\ rb_wf rb /\ size rb = n /\ is_empty rb = true.
Proof.
  intros Hn. unfold __init__.
  destruct (Z.ltb_spec n 0); [lia|]. eexists. split; [reflexivity|].
  unfold rb_wf. simpl. rewrite repeat_length. split_and!; try done; lia.
Qed.

(** C5, for capacity N >= 2: from an empty buffer, N - 1 puts succeed and
    leave the buffer not empty; a further put returns [None] and leaves the
    buffer as it was; N - 1 gets return the bytes in the order they were
    put, and the next get returns [None]; a get returns [None] exactly when
    the read position equals the write position. *)
Theorem ring_buffer_fifo rb0 :
  rb_wf rb0 -> is_empty rb0 = true -> 2 <= size rb0 ->
  fifo_contract rb0
  /\ forall rb,
      (exists rb', get rb = Ok (rb', None)) <-> index_get rb = index_put rb.
Proof.
  intros Hwf Hempty Hsize. split; [|apply get_None_iff].
  intros vs Hlen Hbytes.
  apply is_empty_true in Hempty.
  assert (rb_count rb0 = 0) as Hc0 by (by apply rb_count_0).
  assert (rb_contents rb0 = []) as Hk0.
  { unfold rb_contents. by rewrite Hc0. }
  destruct (put_all_room rb0 vs Hwf) as (rb1 & Hput & Hwf1 & Hsize1 & Hc1 & Hk1);
    [lia|done|].
  rewrite Hk0 in Hk1. simpl in Hk1.
  destruct (get_n_contents rb1 vs [] Hwf1) as (rb2 & Hget & Hwf2 & Hsize2 & Hk2);
    [by rewrite app_nil_r|].
  assert (index_get rb2 = index_put rb2) as Hempty2.
  { apply rb_count_0; [done|]. rewrite <- length_rb_contents, Hk2 by done.
    done. }
  exists rb1, rb2. split_and!; try done.
  - apply not_true_iff_false. rewrite is_empty_true, <- rb_count_0 by done.
    lia.
  - intros v. apply put_full; [done|]. lia.
  - by apply get_empty.
  - by apply is_empty_true.
Qed.

End ring_buffer.

(** The theorem for a fresh buffer of capacity 4 and the bytes 10, 11, 12. *)
Lemma ring_buffer_fifo_witness :
  exists rb0 rb1 rb2,
    RingBuf.__init__ 4 = Ok rb0
    /\ put_all rb0 [10; 11; 12] = Ok (rb1, [Some 10; Some 11; Some 12])
    /\ RingBuf.put rb1 13 = Ok (rb1, None)
    /\ get_n rb1 3 = Ok (rb2, [Some 10; Some 11; Some 12])
    /\ RingBuf.get rb2 = Ok (rb2, None).
Proof.
  destruct (init_wf 4) as (rb0 & Hinit & Hwf & Hsize & Hempty); [lia|].
  destruct (ring_buffer_fifo rb0 Hwf Hempty) as [Hfifo _]; [lia|].
  destruct (Hfifo [10; 11; 12])
    as (rb1 & rb2 & Hput & _ & Hfull & Hget & Hnone & _).
  - rewrite Hsize. reflexivity.
  - repeat (apply Forall_cons_2 || apply Forall_nil_2); unfold is_byte; lia.
  - exists rb0, rb1, rb2. split_and!; try done.
Defined.

(** A buffer of capacity 1 holds no byte: after the 0 puts that fill it, it
    is still empty. *)
Lemma ring_buffer_capacity_1_stays_empty :
  exists rb0,
    RingBuf.__init__ 1 = Ok rb0 /\ rb_wf rb0 /\ RingBuf.is_empty rb0 = true
    /\ ~ fifo_contract rb0.
Proof.
  eexists. split; [reflexivity|]. split; [|split; [reflexivity|]].
  - unfold rb_wf. simpl. lia.
  - intros Hfifo.
    destruct (Hfifo []) as (rb1 & rb2 & Hput & Hne & _); [done|done|].
    injection Hput as <-. discriminate Hne.
Qed.

(** ** The MIDI receive path *)

Section midi_receive.
Context {F : Framework}.
Import MIDIInterface.

Implicit Types (self : MIDIInterface.t) (rb : RingBuf.t).

(** A [put] into a well-formed buffer never raises. *)
Lemma put_total rb (v : Z) :
  rb_wf rb ->
  exists rb' r,
    RingBuf.put rb v = Ok (rb', r) /\ rb_wf rb'
    /\ RingBuf.size rb' = RingBuf.size rb.
Proof.
  intros Hwf. unfold RingBuf.put, py_mod.
  destruct (Z.eqb_spec (RingBuf.size rb) 0) as [Hz|_]; [destruct Hwf; lia|].
  simpl bind.
  destruct (negb _); [|by exists rb, None].
  unfold setitem. rewrite norm_index_in_range by (destruct Hwf; lia).
  simpl. eexists _, _. split; [reflexivity|].
  destruct Hwf as (? & ? & ? & ?). unfold rb_wf. simpl.
  rewrite length_insert.
  pose proof (Z.mod_pos_bound (RingBuf.index_put rb + 1) (RingBuf.size rb)).
  split_and!; lia.
Qed.

Lemma put_received_total self rb (rx : list Z) (i : Z) :
  MIDIInterface.rb self = Some rb -> rx_data self = Some rx -> rb_wf rb ->
  0 <= i < Z.of_nat (length rx) ->
  exists rb',
    put_received i self = Ok (with_rb self rb') /\ rb_wf rb'.
Proof.
  intros Hrb Hrx Hwf Hi. unfold put_received. rewrite Hrb, Hrx. simpl bind.
  unfold getitem. rewrite norm_index_in_range by done. simpl bind.
  destruct (lookup_lt_is_Some_2 rx (Z.to_nat i)) as [v Hv]; [lia|].
  rewrite Hv. simpl bind.
  destruct (put_total rb v Hwf) as (rb' & r & -> & Hwf' & _).
  by exists rb'.
Qed.

(** With a ring buffer and a receive buffer attached, the callback runs to
    completion for any number of transferred bytes the buffer can hold,
    and what it submits is one transfer of the receive buffer on endpoint
    0x03, whatever [ep_in] is. *)
Lemma receive_data_callback_submits self rb (rx : list Z)
  (ep_addr result_ xferred_bytes : Z) :
  MIDIInterface.rb self = Some rb -> rx_data self = Some rx -> rb_wf rb ->
  xferred_bytes <= Z.of_nat (length rx) ->
  exists rb',
    receive_data_callback self ep_addr result_ xferred_bytes
    = Ok (with_rb self rb',
          [Xfer (Some 0x03) rx (Some receive_data_callback_cb)])
    /\ rb_wf rb'.
Proof.
  intros Hrb Hrx Hwf Hn. unfold receive_data_callback.
  assert (forall (idxs : list Z) self0 rb0,
             Forall (fun i => 0 <= i < Z.of_nat (length rx)) idxs ->
             MIDIInterface.rb self0 = Some rb0 -> rx_data self0 = Some rx ->
             rb_wf rb0 ->
             exists rb', for_each idxs put_received self0
                         = Ok (with_rb self0 rb') /\ rb_wf rb') as Hloop.
  { induction idxs as [|i idxs IH]; intros self0 rb0 Hidx Hrb0 Hrx0 Hwf0.
    - exists rb0. split; [|done]. simpl. f_equal.
      destruct self0; simpl in *; by subst.
    - apply Forall_cons in Hidx as [Hi Hidx].
      destruct (put_received_total self0 rb0 rx i Hrb0 Hrx0 Hwf0 Hi)
        as (rb1 & Hput & Hwf1).
      cbn [for_each]. rewrite Hput. simpl bind.
      destruct (IH (with_rb self0 rb1) rb1 Hidx eq_refl Hrx0 Hwf1)
        as (rb' & -> & Hwf').
      by exists rb'. }
  destruct (Hloop (range xferred_bytes) self rb) as (rb' & -> & Hwf');
    try done.
  { apply Forall_seqZ. lia. }
  simpl bind. unfold with_rb at 1. cbn [rx_data]. rewrite Hrx. simpl.
  exists rb'. split; [|done]. unfold with_rb. by rewrite Hrx.
Qed.

(** C9, on an interface enumerated at endpoint base address 0 with a ring
    buffer of 8 slots and a 64-byte receive buffer attached, when a
    completion reports 4 received bytes: the callback puts the 4 bytes into
    the ring buffer and resubmits the 64-byte receive buffer, but on
    endpoint 0x03, while [start_receive_data] submitted it on [ep_in] = 2. *)
Theorem receive_callback_resubmits_on_endpoint_3 :
  let packet := [0x09; 0x90; 60; 100] in
  let rx := packet ++ repeat 0 60 in
  exists self1 d rb0 self3 rb3,
    get_endpoint_descriptors (__init__ 1 1) 0 0 = Ok (self1, d)
    /\ RingBuf.__init__ 8 = Ok rb0
    /\ let self2 := attach self1 rb0 rx in
       ep_in self2 = Some 2
       /\ start_receive_data self2
          = Ok (self2, [Xfer (Some 2) rx (Some receive_data_callback_cb)])
       /\ receive_data_callback self2 2 0 4
          = Ok (self3, [Xfer (Some 3) rx (Some receive_data_callback_cb)])
       /\ MIDIInterface.rb self3 = Some rb3
       /\ rb_contents rb3 = packet
       /\ length rx = 64%nat.
Proof.
  intros packet rx.
  destruct (get_endpoint_descriptors_eq (__init__ 1 1) 0 0)
    as (self1 & Hep & _ & Hin).
  eexists self1, _, _, _, _. split; [exact Hep|].
  split; [reflexivity|]. cbv zeta.
  unfold attach. rewrite Hin.
  split; [reflexivity|]. split; [reflexivity|].
  split; [reflexivity|]. split; [reflexivity|].
  split; reflexivity.
Qed.

(** Without the two attributes attached, neither method runs. *)
Lemma receive_path_needs_attributes (num_rx num_tx ep_addr result_ n : Z) :
  start_receive_data (__init__ num_rx num_tx) = Raise AttributeError
  /\ receive_data_callback (__init__ num_rx num_tx) ep_addr result_ n
     = Raise AttributeError.
Proof.
  split; [reflexivity|]. unfold receive_data_callback, range.
  destruct (Z.le_gt_cases n 0).
  - by rewrite seqZ_nil.
  - by rewrite seqZ_cons.
Qed.

End midi_receive.

(** ** The CDC data path *)

Section cdc_data.
Import CDCDataInterface.

Implicit Types (w : world) (p : list Z).

Lemma slice_to_prefix (got rest : list Z) :
  slice_to (got ++ rest) (Z.of_nat (length got)) = got.
Proof.
  unfold slice_to. destruct (Z.ltb_spec (Z.of_nat (length got)) 0); [lia|].
  rewrite Nat2Z.id. apply take_app_length.
Qed.

Lemma count_rx_app (xs ys : list xfer) :
  count_rx (xs ++ ys) = (count_rx xs + count_rx ys)%nat.
Proof. induction xs as [|x xs IH]; simpl; [done|]. rewrite IH. lia. Qed.

Lemma take_oldest_count (ep : Z) (xs rest : list xfer) (x : xfer) :
  take_oldest ep xs = Some (x, rest) ->
  count_rx xs = ((if is_rx_transfer x then 1 else 0) + count_rx rest)%nat.
Proof.
  revert rest. induction xs as [|y xs IH]; intros rest; simpl; [done|].
  destruct (match xfer_ep y with Some e => e =? ep | None => false end).
  - by intros [= -> ->].
  - destruct (take_oldest ep xs) as [[z rest']|]; [|done].
    intros [= -> <-]. simpl. rewrite (IH rest') by done. lia.
Qed.

(** Before enumeration [read] raises: [ep_out] is not assigned yet. *)
Lemma read_before_enumeration w (nbytes : Z)
  (periods : list (list (Z * list Z))) :
  ep_out (itf w) = None -> read w nbytes periods = Raise AttributeError.
Proof.
  intros Hep. unfold read, read_start, _poll_rx_endpoint.
  cbn [ep_out]. by rewrite Hep.
Qed.

(** One completion during a [read]: on a receive transfer the callback
    appends the payload, clipped to the buffer, and resubmits while fewer
    than [nbytes] bytes are there; any other transfer just leaves. *)
Lemma complete_preserves (base : list (list Z)) (nbytes : Z) (size k : nat)
  w (ep : Z) p :
  read_inv base nbytes size w ->
  exists w',
    complete w ep p = Ok w'
    /\ read_inv base nbytes size w'
    /\ (read_bounded_stale nbytes size k w ->
        read_bounded_stale nbytes size k w').
Proof.
  intros (new & Hd & Htotal & Hn & Hreq & Hsize & [ep_o Hep] & Hnew).
  unfold complete.
  destruct (take_oldest ep (in_flight w)) as [[x rest]|] eqn:Htake.
  2:{ exists w. split; [done|]. split; [|done].
      exists new. by split_and!. }
  pose proof (take_oldest_count ep _ _ _ Htake) as Hcount.
  unfold is_rx_transfer in Hcount.
  assert (forall w0,
             itf w0 = itf w -> delivered w0 = delivered w ->
             in_flight w0 = rest ->
             (if match xfer_cb x with Some _cb_rx_cb => true | _ => false end
              then False else True) ->
             read_inv base nbytes size w0
             /\ (read_bounded_stale nbytes size k w ->
                 read_bounded_stale nbytes size k w0)) as Hother.
  { intros w0 Hitf Hdel Hfl Hcb. split.
    - exists new. rewrite Hitf, Hdel. by split_and!.
    - intros (n & Hn' & Hle & Hbound). exists n.
      rewrite Hitf, Hfl. split; [done|].
      destruct (xfer_cb x) as [[]|]; try done; simpl in Hcount;
        rewrite Hcount in *; split; lia. }
  destruct (xfer_cb x) as [[]|] eqn:Hcb.
  1,3: eexists; split; [reflexivity|]; by apply Hother.
  unfold _cb_rx, _poll_rx_endpoint.
  cbn [total_rx rx_nbytes rx_nbytes_requested rx_buf ep_out].
  rewrite Htotal, Hn, Hreq, Hep. cbn [attr bind].
  set (got := firstn (length (rx_buf (itf w))) p).
  rewrite slice_to_prefix.
  assert ((length got <= size)%nat) as Hgot.
  { subst got. rewrite length_firstn. lia. }
  assert (length (got ++ skipn (length got) (rx_buf (itf w))) = size) as Hsize'.
  { rewrite length_app, length_skipn. lia. }
  assert (Z.of_nat (length (concat new)) + Z.of_nat (length got)
          = Z.of_nat (length (concat (new ++ [got])))) as Hlen.
  { rewrite concat_app, !length_app. simpl. rewrite app_nil_r. lia. }
  assert (concat new ++ got = concat (new ++ [got])) as Hcat.
  { rewrite concat_app. simpl. by rewrite app_nil_r. }
  destruct (Z.ltb_spec (Z.of_nat (length (concat new)) + Z.of_nat (length got))
              nbytes) as [Hmore|Hdone];
    cbn [bind fst snd]; eexists; (split; [reflexivity|]); split.
  - exists (new ++ [got]). cbn [delivered itf total_rx rx_nbytes
      rx_nbytes_requested rx_buf ep_out in_flight].
    rewrite Hd, Hlen, Hcat, app_assoc. split_and!; try done.
    apply Forall_app; split; [done|].
    apply Forall_cons_2; [done|apply Forall_nil_2].
  - intros (n & Hn' & Hle & Hbound).
    rewrite Hn in Hn'. injection Hn' as <-.
    eexists. cbn [itf rx_nbytes in_flight]. split; [reflexivity|].
    rewrite count_rx_app. simpl in Hcount |- *. rewrite Hcount in *.
    split; [lia|]. nia.
  - exists (new ++ [got]). cbn [delivered itf total_rx rx_nbytes
      rx_nbytes_requested rx_buf ep_out in_flight].
    rewrite Hd, Hlen, Hcat, app_assoc. split_and!; try done.
    apply Forall_app; split; [done|].
    apply Forall_cons_2; [done|apply Forall_nil_2].
  - intros (n & Hn' & Hle & Hbound).
    rewrite Hn in Hn'. injection Hn' as <-.
    eexists. cbn [itf rx_nbytes in_flight]. split; [reflexivity|].
    rewrite app_nil_r. simpl in Hcount. rewrite Hcount in *.
    split; [lia|]. nia.
Qed.

Lemma read_loop_preserves (base : list (list Z)) (nbytes : Z) (size k : nat)
  (periods : list (list (Z * list Z))) w :
  read_inv base nbytes size w ->
  exists w',
    read_loop w nbytes periods = Ok w'
    /\ read_inv base nbytes size w'
    /\ (read_bounded_stale nbytes size k w ->
        read_bounded_stale nbytes size k w')
    /\ (nbytes <= 0 \/ Forall (fun cs => cs = []) periods -> w' = w).
Proof.
  assert (forall (cs : list (Z * list Z)) w,
             read_inv base nbytes size w ->
             exists w',
               for_each cs (fun c w => complete w (fst c) (snd c)) w = Ok w'
               /\ read_inv base nbytes size w'
               /\ (read_bounded_stale nbytes size k w ->
                   read_bounded_stale nbytes size k w')) as Hcs.
  { induction cs as [|c cs IH]; intros w0 Hinv.
    - by exists w0.
    - destruct (complete_preserves base nbytes size k w0 (fst c) (snd c) Hinv)
        as (w1 & Hc & Hinv1 & Hb1).
      destruct (IH w1 Hinv1) as (w' & Hrun & Hinv' & Hb').
      exists w'. cbn [for_each]. rewrite Hc. cbn [bind]. auto. }
  revert w. induction periods as [|cs periods IH]; intros w Hinv.
  - by exists w.
  - cbn [read_loop].
    pose proof Hinv as (new & _ & _ & Hn & _).
    rewrite Hn. cbn [attr bind].
    destruct (Z.leb_spec nbytes (Z.of_nat (length (concat new))))
      as [Hle|Hgt].
    { by exists w. }
    destruct (Hcs cs w Hinv) as (w1 & Hrun & Hinv1 & Hb1).
    destruct (IH w1 Hinv1) as (w' & Hloop & Hinv' & Hb' & Hidle).
    exists w'. rewrite Hrun. cbn [bind]. split_and!; auto.
    intros [Hneg|[-> Hall]%Forall_cons]; [lia|].
    simpl in Hrun. injection Hrun as <-. auto.
Qed.

(** What [read] does on an enumerated interface: it returns the payloads
    delivered during the call, which are at most [nbytes] - 1 bytes and one
    buffer for each receive transfer in flight, its own included. *)
Lemma read_accumulates w (nbytes : Z) (periods : list (list (Z * list Z)))
  (ep : Z) :
  ep_out (itf w) = Some ep ->
  exists w' new,
    read w nbytes periods = Ok (w', concat new)
    /\ delivered w' = delivered w ++ new
    /\ total_rx (itf w') = Some (concat new)
    /\ (1 <= nbytes ->
        Z.of_nat (length (concat new))
        <= nbytes - 1
           + (Z.of_nat (count_rx (in_flight w)) + 1)
             * Z.of_nat (length (rx_buf (itf w))))
    /\ (nbytes <= 0 \/ Forall (fun cs => cs = []) periods ->
        new = []
        /\ in_flight w'
           = in_flight w ++ [Xfer (Some ep) (rx_buf (itf w)) (Some _cb_rx_cb)]
        /\ rx_buf (itf w') = rx_buf (itf w)).
Proof.
  intros Hep. unfold read, read_start, _poll_rx_endpoint.
  cbn [ep_out rx_buf]. rewrite Hep. cbn [attr bind fst snd].
  set (w1 := {| itf := _; in_flight := _; delivered := _ |}).
  set (size := length (rx_buf (itf w))).
  set (k := count_rx (in_flight w)).
  assert (read_inv (delivered w) nbytes size w1) as Hinv.
  { exists []. subst w1. cbn [delivered itf total_rx rx_nbytes
      rx_nbytes_requested rx_buf ep_out in_flight].
    rewrite app_nil_r. by split_and!. }
  destruct (read_loop_preserves (delivered w) nbytes size k periods w1 Hinv)
    as (w' & Hloop & (new & Hd & Htotal & Hn & _) & Hb & Hidle).
  rewrite Hloop. cbn [bind]. rewrite Htotal. cbn [attr bind].
  exists w', new. split_and!; try done.
  - intros Hpos. destruct Hb as (n & Hn' & _ & Hbound).
    { exists 0. subst w1. cbn [itf rx_nbytes in_flight].
      rewrite count_rx_app. simpl count_rx. fold k.
      split; [done|]. split; [lia|].
      replace (k + (1 + 0))%nat with (S k) by lia. lia. }
    rewrite Hn in Hn'. injection Hn' as <-. nia.
  - intros Hcase. specialize (Hidle Hcase). subst w'.
    subst w1. cbn [itf total_rx delivered in_flight rx_buf] in *.
    split; [|done].
    apply (app_inv_head (delivered w)). by rewrite app_nil_r.
Qed.

(** C8, on an enumerated interface and without the bound by nbytes: [read]
    returns, and what it returns is exactly the payloads delivered by
    completions of its receive transfers during the call, in order (each
    clipped to the 64-byte receive buffer and appended whole).  When no
    receive transfer of an earlier read is still in flight, the result is
    less than one receive buffer longer than nbytes.  When nothing
    completes before the timeout, the result is empty: fewer bytes than
    asked for, and not an error. *)
Theorem read_returns_accumulated w (nbytes : Z)
  (periods : list (list (Z * list Z))) (ep : Z) :
  ep_out (itf w) = Some ep ->
  exists w' buf new,
    read w nbytes periods = Ok (w', buf)
    /\ delivered w' = delivered w ++ new
    /\ buf = concat new
    /\ total_rx (itf w') = Some buf
    /\ (count_rx (in_flight w) = 0%nat ->
        Z.of_nat (length buf)
        <= Z.max 0 (nbytes - 1 + Z.of_nat (length (rx_buf (itf w)))))
    /\ (Forall (fun cs => cs = []) periods -> buf = []).
Proof.
  intros Hep.
  destruct (read_accumulates w nbytes periods ep Hep)
    as (w' & new & Hread & Hd & Htotal & Hbound & Hidle).
  exists w', (concat new), new. split_and!; try done.
  - intros Hnone. destruct (Z.le_gt_cases nbytes 0) as [Hle|Hgt].
    + destruct Hidle as (-> & _); [by left|]. simpl. lia.
    + rewrite Hnone in Hbound. specialize (Hbound ltac:(lia)). lia.
  - intros Hall. destruct Hidle as (-> & _); [by right|]. done.
Qed.

End cdc_data.

(** The theorem for [read(3)] on an enumerated interface with a [write] of
    two bytes still pending, when the write completes and 2 bytes and then
    4 bytes arrive: the 6 bytes are returned. *)
Lemma read_returns_accumulated_witness :
  let w := CDCDataInterface.World
             (CDCDataInterface.itf sample_data_world)
             [Xfer (Some 129) [9; 9] None] [] in
  CDCDataInterface.ep_out (CDCDataInterface.itf w) = Some 2
  /\ CDCDataInterface.write (CDCDataInterface.itf sample_data_world) [9; 9]
     = Ok [Xfer (Some 129) [9; 9] None]
  /\ exists w',
      CDCDataInterface.read w 3
        [[(129, []); (2, [1; 2])]; [(2, [3; 4; 5; 6])]; [(2, [7])]]
      = Ok (w', [1; 2; 3; 4; 5; 6])
      /\ CDCDataInterface.delivered w' = [[1; 2]; [3; 4; 5; 6]].
Proof.
  intros w. split; [reflexivity|]. split; [reflexivity|].
  destruct (read_returns_accumulated w 3
              [[(129, []); (2, [1; 2])]; [(2, [3; 4; 5; 6])]; [(2, [7])]] 2)
    as (w' & buf & new & Hread & Hd & Hbuf & _); [reflexivity|].
  exists w'. vm_compute in Hread. injection Hread as <- <-.
  split; reflexivity.
Defined.

(** [read(10)] on an enumerated interface when the host sends one full
    64-byte packet returns all 64 bytes. *)
Lemma read_10_returns_64 :
  CDCDataInterface.ep_out (CDCDataInterface.itf sample_data_world) = Some 2
  /\ (exists w',
        CDCDataInterface.read sample_data_world 10 [[(2, repeat 7 64)]]
        = Ok (w', repeat 7 64))
  /\ ~ read_never_exceeds sample_data_world 10 [[(2, repeat 7 64)]].
Proof.
  split; [reflexivity|]. split; [eexists; vm_compute; reflexivity|].
  intros Hbound.
  pose proof (Hbound _ (repeat 7 64) eq_refl) as Hlen.
  vm_compute in Hlen. by apply Hlen.
Qed.

(** * Further properties *)

(** ** The ring buffer as a bounded queue *)

Lemma rb_contents_empty (rb : RingBuf.t) :
  rb_wf rb -> RingBuf.index_get rb = RingBuf.index_put rb ->
  rb_contents rb = [].
Proof.
  intros Hwf Heq. apply (rb_count_0 rb Hwf) in Heq.
  unfold rb_contents. by rewrite Heq.
Qed.

Lemma get_head (rb : RingBuf.t) :
  rb_wf rb ->
  exists rb',
    RingBuf.get rb = Ok (rb', head (rb_contents rb))
    /\ rb_wf rb' /\ RingBuf.size rb' = RingBuf.size rb
    /\ rb_contents rb' = tail (rb_contents rb).
Proof.
  intros Hwf.
  destruct (Z.eq_dec (RingBuf.index_get rb) (RingBuf.index_put rb))
    as [Heq|Hne].
  - exists rb. rewrite (rb_contents_empty rb Hwf Heq).
    split; [by apply get_empty|done].
  - destruct (get_not_empty rb Hwf Hne)
      as (rb' & x & Hget & Hwf' & Hsize & _ & Hk).
    exists rb'. rewrite Hk. by split_and!.
Qed.

Lemma put_tail (rb : RingBuf.t) (v : Z) :
  rb_wf rb -> is_byte v ->
  let room := Z.of_nat (length (rb_contents rb)) <? RingBuf.size rb - 1 in
  exists rb',
    RingBuf.put rb v = Ok (rb', if room then Some v else None)
    /\ rb_wf rb' /\ RingBuf.size rb' = RingBuf.size rb
    /\ rb_contents rb'
       = if room then rb_contents rb ++ [v] else rb_contents rb.
Proof.
  intros Hwf Hv room. subst room. rewrite length_rb_contents by done.
  pose proof (rb_count_range rb Hwf) as Hrange.
  destruct (Z.ltb_spec (rb_count rb) (RingBuf.size rb - 1)) as [Hroom|Hfull].
  - destruct (put_not_full rb v Hwf Hroom Hv)
      as (rb' & Hput & Hwf' & Hsize & _ & Hk).
    by exists rb'.
  - exists rb. split; [apply put_full; [done|lia]|done].
Qed.

(** X1: on a well-formed ring buffer, any sequence of puts (of bytes) and
    gets runs without an exception and returns what a queue bounded to
    size - 1 values returns: a put is refused exactly when size - 1 bytes
    are stored, a get returns the oldest byte or [None], also after the
    indices have wrapped around. *)
Theorem ring_buffer_refines_queue (rb : RingBuf.t) (ops : list rb_op) :
  rb_wf rb -> Forall op_is_byte ops ->
  let reference := queue_run (RingBuf.size rb - 1) (rb_contents rb) ops in
  exists rb',
    rb_run rb ops = Ok (rb', snd reference)
    /\ rb_wf rb' /\ RingBuf.size rb' = RingBuf.size rb
    /\ rb_contents rb' = fst reference.
Proof.
  revert rb. induction ops as [|op ops IH]; intros rb Hwf Hbytes; cbv zeta.
  - by exists rb.
  - apply Forall_cons in Hbytes as [Hop Hbytes].
    destruct op as [v|]; cbn [rb_run queue_run].
    + destruct (put_tail rb v Hwf Hop) as (rb1 & -> & Hwf1 & Hsize1 & Hk1).
      cbn [bind fst snd].
      destruct (IH rb1 Hwf1 Hbytes) as (rb' & -> & Hwf' & Hsize' & Hk').
      cbn [bind fst snd]. rewrite Hsize1, Hk1 in *.
      exists rb'.
      destruct (Z.of_nat (length (rb_contents rb)) <? RingBuf.size rb - 1);
        cbn [fst snd]; split_and!; try done; lia.
    + destruct (get_head rb Hwf) as (rb1 & -> & Hwf1 & Hsize1 & Hk1).
      cbn [bind fst snd].
      destruct (IH rb1 Hwf1 Hbytes) as (rb' & -> & Hwf' & Hsize' & Hk').
      cbn [bind fst snd]. rewrite Hsize1, Hk1 in *.
      exists rb'.
      destruct (rb_contents rb) as [|x q];
        cbn [fst snd head tail] in *; split_and!; try done; lia.
Qed.

(** The theorem on a fresh buffer of 4 slots: the fourth put is refused,
    and the put after a get lands in the slot that wraps around. *)
Lemma ring_buffer_refines_queue_witness :
  exists rb0 rb',
    RingBuf.__init__ 4 = Ok rb0
    /\ rb_run rb0 [Put 1; Put 2; Put 3; Put 4; Get; Put 5; Get; Get; Get; Get]
       = Ok (rb', [Some 1; Some 2; Some 3; None; Some 1; Some 5;
                   Some 2; Some 3; Some 5; None])
    /\ rb_contents rb' = [].
Proof.
  destruct (init_wf 4) as (rb0 & Hinit & Hwf & Hsize & Hempty); [lia|].
  destruct (ring_buffer_refines_queue rb0
              [Put 1; Put 2; Put 3; Put 4; Get; Put 5; Get; Get; Get; Get])
    as (rb' & Hrun & _ & _ & Hk); [done| |].
  - repeat (apply Forall_cons_2 || apply Forall_nil_2); simpl;
      first [exact I | unfold is_byte; lia].
  - exists rb0, rb'. rewrite Hsize in *.
    rewrite (rb_contents_empty rb0) in * by (done || by apply is_empty_true).
    by split_and!.
Defined.

(** ** The MIDI receive path, from the callback to [get_midi] *)

Section midi_data.
Context {F : Framework}.
Import MIDIInterface.

Implicit Types (self : MIDIInterface.t) (rb : RingBuf.t).

(** Putting bytes one after the other stores those that fit, in order, and
    drops the others. *)
Lemma put_all_fits rb (vs : list Z) :
  rb_wf rb -> Forall is_byte vs ->
  exists rb' outs,
    put_all rb vs = Ok (rb', outs)
    /\ rb_wf rb' /\ RingBuf.size rb' = RingBuf.size rb
    /\ rb_contents rb'
       = rb_contents rb
         ++ firstn (Z.to_nat (RingBuf.size rb - 1
                              - Z.of_nat (length (rb_contents rb)))) vs.
Proof.
  revert rb. induction vs as [|v vs IH]; intros rb Hwf Hbytes.
  - exists rb, []. rewrite firstn_nil, app_nil_r. by split_and!.
  - apply Forall_cons in Hbytes as [Hv Hbytes].
    destruct (put_tail rb v Hwf Hv) as (rb1 & Hput & Hwf1 & Hsize1 & Hk1).
    destruct (IH rb1 Hwf1 Hbytes) as (rb' & outs & Hall & Hwf' & Hsize' & Hk').
    cbn [put_all]. rewrite Hput. cbn [bind fst snd]. rewrite Hall.
    cbn [bind fst snd]. eexists rb', _. split; [reflexivity|].
    split; [done|]. split; [lia|].
    rewrite Hk', Hk1, Hsize1.
    destruct (Z.ltb_spec (Z.of_nat (length (rb_contents rb)))
                (RingBuf.size rb - 1)) as [Hroom|Hfull].
    + rewrite length_app. simpl length.
      replace (Z.to_nat (RingBuf.size rb - 1
                         - Z.of_nat (length (rb_contents rb))))
        with (S (Z.to_nat (RingBuf.size rb - 1
                           - Z.of_nat (length (rb_contents rb) + 1))))
        by lia.
      by rewrite <- app_assoc.
    + replace (Z.to_nat (RingBuf.size rb - 1
                         - Z.of_nat (length (rb_contents rb))))
        with 0%nat by lia.
      done.
Qed.

(** The callback's loop over indices is [put_all] over the bytes at those
    indices. *)
Lemma put_received_loop (rx : list Z) (idxs vs : list Z) self rb rb'
  (outs : list (option Z)) :
  Forall2 (fun i v => 0 <= i /\ rx !! Z.to_nat i = Some v) idxs vs ->
  MIDIInterface.rb self = Some rb -> rx_data self = Some rx ->
  put_all rb vs = Ok (rb', outs) ->
  for_each idxs put_received self = Ok (with_rb self rb').
Proof.
  intros Hrel. revert self rb outs.
  induction Hrel as [|i v idxs vs [Hi Hv] _ IH]; intros self rb outs Hrb Hrx Hall.
  - injection Hall as <- _. simpl. f_equal.
    destruct self; simpl in *; by subst.
  - cbn [put_all] in Hall.
    destruct (RingBuf.put rb v) as [[rb1 out]|] eqn:Hput; [|done].
    cbn [bind fst snd] in Hall.
    destruct (put_all rb1 vs) as [[rb2 outs2]|] eqn:Hall2; [|done].
    injection Hall as <- _.
    cbn [for_each]. unfold put_received at 1. rewrite Hrb, Hrx.
    cbn [attr bind]. unfold getitem.
    rewrite norm_index_in_range
      by (apply lookup_lt_Some in Hv; lia).
    cbn [bind]. rewrite Hv. cbn [bind]. rewrite Hput. cbn [bind fst].
    by rewrite (IH (with_rb self rb1) rb1 outs2 eq_refl Hrx Hall2).
Qed.

Lemma range_reads_prefix (rx : list Z) (n : Z) :
  n <= Z.of_nat (length rx) ->
  Forall2 (fun i v => 0 <= i /\ rx !! Z.to_nat i = Some v)
    (range n) (firstn (Z.to_nat n) rx).
Proof.
  intros Hn. apply Forall2_same_length_lookup_2.
  - unfold range. rewrite length_seqZ, length_take. lia.
  - intros k i v [-> Hk]%lookup_seqZ Hv.
    rewrite lookup_take_Some in Hv. destruct Hv as [Hv _].
    split; [lia|]. by rewrite Z.add_0_l, Nat2Z.id.
Qed.

(** X2: with a ring buffer and a receive buffer attached, the callback for
    a completion of n bytes (n no more than the receive buffer holds) puts
    the first bytes of the receive buffer into the ring buffer for as long
    as it has room and drops the others, raises nothing, and submits one
    transfer. *)
Theorem receive_callback_stores_what_fits self rb (rx : list Z)
  (ep_addr result_ n : Z) :
  MIDIInterface.rb self = Some rb -> rx_data self = Some rx ->
  rb_wf rb -> Forall is_byte rx -> n <= Z.of_nat (length rx) ->
  exists rb',
    receive_data_callback self ep_addr result_ n
    = Ok (with_rb self rb',
          [Xfer (Some 0x03) rx (Some receive_data_callback_cb)])
    /\ rb_wf rb'
    /\ rb_contents rb'
       = rb_contents rb
         ++ firstn (Z.to_nat (RingBuf.size rb - 1
                              - Z.of_nat (length (rb_contents rb))))
              (firstn (Z.to_nat n) rx).
Proof.
  intros Hrb Hrx Hwf Hbytes Hn.
  destruct (put_all_fits rb (firstn (Z.to_nat n) rx) Hwf)
    as (rb' & outs & Hall & Hwf' & _ & Hk).
  { by apply Forall_take. }
  exists rb'. split; [|done].
  unfold receive_data_callback.
  rewrite (put_received_loop rx _ _ self rb rb' outs
             (range_reads_prefix rx n Hn) Hrb Hrx Hall).
  cbn [bind]. unfold with_rb at 1. cbn [rx_data]. rewrite Hrx.
  cbn [attr bind]. unfold with_rb. by rewrite Hrx.
Qed.

Lemma midi_received_stored self rb :
  MIDIInterface.rb self = Some rb -> rb_wf rb ->
  midi_received self
  = Ok (match rb_contents rb with [] => false | _ :: _ => true end).
Proof.
  intros Hrb Hwf.
  unfold midi_received. rewrite Hrb. cbn [attr bind]. f_equal.
  pose proof (length_rb_contents rb Hwf) as Hlen.
  pose proof (rb_count_0 rb Hwf) as Hzero.
  destruct (RingBuf.is_empty rb) eqn:Hempty.
  - apply is_empty_true, Hzero in Hempty.
    destruct (rb_contents rb); [done|simpl in Hlen; lia].
  - destruct (rb_contents rb); [|done]. simpl in Hlen.
    assert (RingBuf.is_empty rb = true) as Habs
      by (apply is_empty_true, Hzero; lia).
    congruence.
Qed.

Lemma get_rb_head self rb :
  MIDIInterface.rb self = Some rb -> rb_wf rb ->
  exists rb',
    get_rb self = Ok (with_rb self rb', head (rb_contents rb))
    /\ rb_wf rb'
    /\ rb_contents rb' = tail (rb_contents rb).
Proof.
  intros Hrb Hwf.
  destruct (get_head rb Hwf) as (rb' & Hget & Hwf' & _ & Hk).
  exists rb'. unfold get_rb. rewrite Hrb. cbn [attr bind].
  rewrite Hget. by cbn [bind fst snd].
Qed.

(** X3: [midi_received] is true exactly when the ring buffer holds a byte,
    and [get_rb] returns the oldest byte and removes it, or returns [None]
    from an empty buffer. *)
Theorem get_rb_pops_oldest self rb :
  MIDIInterface.rb self = Some rb -> rb_wf rb ->
  midi_received self
  = Ok (match rb_contents rb with [] => false | _ :: _ => true end)
  /\ exists rb',
      get_rb self = Ok (with_rb self rb', head (rb_contents rb))
      /\ rb_wf rb'
      /\ rb_contents rb' = tail (rb_contents rb).
Proof.
  intros Hrb Hwf. split.
  - by apply midi_received_stored.
  - by apply get_rb_head.
Qed.

(** X4: [get_midi] returns the four oldest bytes of the ring buffer and
    removes them; when fewer than four are stored it returns those, pads
    the tuple with [None] and leaves the buffer empty; on an empty buffer
    it returns four [None] and changes nothing. *)
Theorem get_midi_takes_four self rb :
  MIDIInterface.rb self = Some rb -> rb_wf rb ->
  let stored := rb_contents rb in
  exists rb',
    MidiUSB.get_midi self
    = Ok (with_rb self rb',
          (stored !! 0%nat, stored !! 1%nat, stored !! 2%nat, stored !! 3%nat))
    /\ rb_wf rb'
    /\ rb_contents rb' = skipn 4 stored.
Proof.
  intros Hrb Hwf. cbv zeta. unfold MidiUSB.get_midi.
  rewrite (midi_received_stored self rb Hrb Hwf).
  destruct (rb_contents rb) as [|b0 bs] eqn:Hstored.
  { exists rb. split; [|by rewrite Hstored]. cbn [bind]. f_equal. f_equal.
    destruct self; simpl in *; by subst. }
  rewrite <- Hstored. clear b0 bs Hstored.
  pose proof get_rb_head as Hpop.
  destruct (Hpop self rb Hrb Hwf) as (rb1 & -> & Hwf1 & Hk1).
  cbn [bind fst snd].
  destruct (Hpop (with_rb self rb1) rb1 eq_refl Hwf1) as (rb2 & -> & Hwf2 & Hk2).
  cbn [bind fst snd].
  destruct (Hpop (with_rb (with_rb self rb1) rb2) rb2 eq_refl Hwf2)
    as (rb3 & -> & Hwf3 & Hk3).
  cbn [bind fst snd].
  destruct (Hpop (with_rb (with_rb (with_rb self rb1) rb2) rb3) rb3
              eq_refl Hwf3) as (rb4 & -> & Hwf4 & Hk4).
  cbn [bind fst snd].
  exists rb4. rewrite Hk4, Hk3, Hk2, Hk1.
  destruct (rb_contents rb) as [|c0 [|c1 [|c2 [|c3 rest]]]];
    by split_and!.
Qed.

End midi_data.

(** The theorems on an interface with an empty ring buffer of 8 slots and a
    64-byte receive buffer: a completion of 4 bytes, then [get_midi]. *)
Lemma receive_callback_stores_what_fits_witness :
  let rx := [0x09; 0x90; 60; 100] ++ repeat 0 60 in
  exists rb0 rb',
    RingBuf.__init__ 8 = Ok rb0
    /\ MIDIInterface.receive_data_callback
         (@attach sample_framework (MIDIInterface.__init__ 1 1) rb0 rx) 3 0 4
       = Ok (@attach sample_framework (MIDIInterface.__init__ 1 1) rb' rx,
             [Xfer (Some 3) rx (Some receive_data_callback_cb)])
    /\ rb_contents rb' = [0x09; 0x90; 60; 100].
Proof.
  intros rx.
  destruct (init_wf 8) as (rb0 & Hinit & Hwf & Hsize & Hempty); [lia|].
  destruct (receive_callback_stores_what_fits
              (@attach sample_framework (MIDIInterface.__init__ 1 1) rb0 rx) rb0 rx 3 0 4)
    as (rb' & Hrun & _ & Hk); try done.
  - subst rx. apply Forall_app. split.
    + repeat (apply Forall_cons_2 || apply Forall_nil_2); unfold is_byte; lia.
    + apply Forall_forall. intros v Hv%list_elem_of_In%repeat_spec.
      unfold is_byte. lia.
  - exists rb0, rb'. split; [done|]. split; [exact Hrun|].
    rewrite Hk, Hsize.
    rewrite (rb_contents_empty rb0) by (done || by apply is_empty_true).
    reflexivity.
Defined.

Lemma get_rb_pops_oldest_witness :
  exists rb0 rb1 rb2,
    RingBuf.__init__ 8 = Ok rb0
    /\ put_all rb0 [7; 8] = Ok (rb1, [Some 7; Some 8])
    /\ MIDIInterface.get_rb
         (@attach sample_framework (MIDIInterface.__init__ 1 1) rb1 [])
       = Ok (@attach sample_framework (MIDIInterface.__init__ 1 1) rb2 [], Some 7)
    /\ rb_contents rb2 = [8].
Proof.
  destruct (init_wf 8) as (rb0 & Hinit & Hwf & Hsize & Hempty); [lia|].
  destruct (put_all_room rb0 [7; 8] Hwf)
    as (rb1 & Hput & Hwf1 & _ & _ & Hk1).
  { rewrite (proj2 (rb_count_0 rb0 Hwf)) by (by apply is_empty_true).
    simpl. lia. }
  { repeat (apply Forall_cons_2 || apply Forall_nil_2); unfold is_byte; lia. }
  rewrite (rb_contents_empty rb0) in Hk1 by (done || by apply is_empty_true).
  destruct (get_rb_pops_oldest
              (@attach sample_framework (MIDIInterface.__init__ 1 1) rb1 []) rb1 eq_refl Hwf1)
    as (_ & rb2 & Hget & _ & Hk2).
  rewrite Hk1 in *. by exists rb0, rb1, rb2.
Defined.

Lemma get_midi_takes_four_witness :
  exists rb0 rb1 rb2,
    RingBuf.__init__ 8 = Ok rb0
    /\ put_all rb0 [0x09; 0x90] = Ok (rb1, [Some 0x09; Some 0x90])
    /\ MidiUSB.get_midi
         (@attach sample_framework (MIDIInterface.__init__ 1 1) rb1 [])
       = Ok (@attach sample_framework (MIDIInterface.__init__ 1 1) rb2 [],
             (Some 0x09, Some 0x90, None, None))
    /\ rb_contents rb2 = [].
Proof.
  destruct (init_wf 8) as (rb0 & Hinit & Hwf & Hsize & Hempty); [lia|].
  destruct (put_all_room rb0 [0x09; 0x90] Hwf)
    as (rb1 & Hput & Hwf1 & _ & _ & Hk1).
  { rewrite (proj2 (rb_count_0 rb0 Hwf)) by (by apply is_empty_true).
    simpl. lia. }
  { repeat (apply Forall_cons_2 || apply Forall_nil_2); unfold is_byte; lia. }
  rewrite (rb_contents_empty rb0) in Hk1 by (done || by apply is_empty_true).
  destruct (get_midi_takes_four
              (@attach sample_framework (MIDIInterface.__init__ 1 1) rb1 []) rb1 eq_refl Hwf1)
    as (rb2 & Hget & _ & Hk2).
  rewrite Hk1 in *. by exists rb0, rb1, rb2.
Defined.

(** ** MIDI messages and the remaining MIDI descriptors *)

Section midi_more.
Context {F : Framework}.
Import MIDIInterface.

Implicit Types (self : MIDIInterface.t).

Lemma lor_status_channel (status channel : Z) :
  0 <= channel < 16 -> (status = 0x80 \/ status = 0x90) ->
  Z.lor status channel = status + channel
  /\ Z.land (Z.lor status channel) 0x0f = channel
  /\ Z.shiftr (Z.lor status channel) 4 = Z.shiftr status 4.
Proof.
  intros Hch Hst.
  assert (channel = 0 \/ channel = 1 \/ channel = 2 \/ channel = 3
          \/ channel = 4 \/ channel = 5 \/ channel = 6 \/ channel = 7
          \/ channel = 8 \/ channel = 9 \/ channel = 10 \/ channel = 11
          \/ channel = 12 \/ channel = 13 \/ channel = 14 \/ channel = 15)
    as Hcases by lia.
  destruct Hst; subst status;
    repeat (destruct Hcases as [->|Hcases]; [by split_and!|]);
    subst channel; by split_and!.
Qed.

(** X5: for a channel from 0 to 15 and byte-sized pitch and velocity,
    [note_on] submits, on [ep_out] and without a callback, the four bytes
    0x09, 0x90 + channel, pitch, velocity, and [note_off] the four bytes
    0x08, 0x80 + channel, pitch, velocity; the low nibble of the second
    byte gives the channel back. *)
Theorem note_messages self (channel pitch vel : Z) :
  0 <= channel < 16 -> is_byte pitch -> is_byte vel ->
  MidiUSB.note_on self channel pitch vel
  = Ok [Xfer (ep_out self) [0x09; 0x90 + channel; pitch; vel] None]
  /\ MidiUSB.note_off self channel pitch vel
     = Ok [Xfer (ep_out self) [0x08; 0x80 + channel; pitch; vel] None]
  /\ Z.land (0x90 + channel) 0x0f = channel
  /\ Z.land (0x80 + channel) 0x0f = channel.
Proof.
  intros Hch Hp Hv. unfold is_byte in *.
  destruct (lor_status_channel 0x90 channel Hch) as (Hon & Hon_ch & _);
    [by right|].
  destruct (lor_status_channel 0x80 channel Hch) as (Hoff & Hoff_ch & _);
    [by left|].
  unfold MidiUSB.note_on, MidiUSB.note_off, send_data.
  cbn [pack bind calcsize1 le_bytes app].
  rewrite Hon, Hoff in *.
  rewrite !(Z.mod_small pitch), !(Z.mod_small vel) by lia.
  rewrite (Z.mod_small (144 + channel)), (Z.mod_small (128 + channel)) by lia.
  by split_and!.
Qed.

(** X6: the dummy Audio-Control interface descriptor is the framework's
    interface descriptor followed by a 9-byte class-specific header whose
    length byte and total-length field both hold 9, its own length, which
    declares one streaming interface, numbered itf_idx + 1. *)
Theorem dummy_audio_header (num_eps itf_idx str_idx : Z) :
  0 <= itf_idx < 255 ->
  let super :=
    super_get_itf_descriptor
      (_INTERFACE_CLASS_AUDIO, _INTERFACE_SUBCLASS_AUDIO_CONTROL,
       _PROTOCOL_NONE) num_eps itf_idx str_idx in
  exists header,
    DummyAudioInterface.get_itf_descriptor num_eps itf_idx str_idx
    = Ok (fst super ++ header, snd super)
    /\ length header = 9%nat
    /\ head header = Some (Z.of_nat (length header))
    /\ le_int (firstn 2 (skipn 5 header)) = Z.of_nat (length header)
    /\ header !! 7%nat = Some 1
    /\ header !! 8%nat = Some (itf_idx + 1).
Proof.
  intros Hidx super. unfold DummyAudioInterface.get_itf_descriptor.
  fold super. destruct super as [desc strs].
  cbn [pack bind calcsize1 le_bytes app fst snd].
  eexists. split; [reflexivity|].
  split_and!; try reflexivity.
  simpl. by rewrite Z.mod_small by lia.
Qed.

Lemma jacks_paired_connections self (l1 l2 : list Z) :
  jacks_paired (concat (rx_connection self <$> l1)
                ++ concat (tx_connection self <$> l2)).
Proof.
  induction l1 as [|i l1 IH]; csimpl.
  - induction l2 as [|i l2 IH]; csimpl; [done|]. by split_and!.
  - by split_and!.
Qed.

(** X7: the jack descriptors the interface descriptor carries always parse
    as two jacks per connection, in pairs: an IN jack, then an OUT jack of
    the other type (embedded or external) whose one input pin names that IN
    jack as its source. *)
Theorem jacks_come_in_pairs self :
  exists js jl,
    jacks self = Ok js
    /\ parse_jacks js = Some jl
    /\ jacks_paired jl
    /\ Z.of_nat (length jl)
       = 2 * (Z.max 0 (_num_rx self) + Z.max 0 (_num_tx self)).
Proof.
  eexists _, _. split; [apply jacks_eq|].
  split; [apply parse_jacks_chunks|].
  split; [apply jacks_paired_connections|].
  rewrite length_app.
  rewrite !(length_concat_const _ 2) by done.
  unfold range. rewrite !length_seqZ. lia.
Qed.

(** The IDs of the jacks of connections m, m+1, ... (n of them), when
    connection k has the two IDs 2(k + shift) + 1 and 2(k + shift) + 2 in
    either order, are distinct and lie in the interval they fill. *)
Lemma block_ids_distinct (block : Z -> list Z) (shift : Z) (n : nat) (m : Z) :
  (forall k, block k = [2 * (k + shift) + 1; 2 * (k + shift) + 2]
             \/ block k = [2 * (k + shift) + 2; 2 * (k + shift) + 1]) ->
  NoDup (concat (block <$> seqZ m (Z.of_nat n)))
  /\ Forall (fun id => 2 * (m + shift) < id <= 2 * (m + Z.of_nat n + shift))
       (concat (block <$> seqZ m (Z.of_nat n))).
Proof.
  intros Hblock. revert m. induction n as [|n IH]; intros m.
  - rewrite seqZ_nil by lia. csimpl. split; [apply NoDup_nil_2|done].
  - rewrite seqZ_cons by lia. csimpl.
    replace (Z.pred (Z.of_nat (S n))) with (Z.of_nat n) by lia.
    destruct (IH (Z.succ m)) as [Hnodup Hrange].
    assert (Forall (fun id => 2 * (m + shift) < id <= 2 * (m + shift) + 2)
              (block m)) as Hm.
    { destruct (Hblock m) as [->| ->];
        repeat (apply Forall_cons_2 || apply Forall_nil_2); lia. }
    assert (NoDup (block m)) as Hmd.
    { destruct (Hblock m) as [->| ->];
        repeat (apply NoDup_cons_2 || apply NoDup_nil_2);
        rewrite ?list_elem_of_In; simpl; lia. }
    split.
    + apply NoDup_app. split; [done|]. split; [|done].
      intros id Hid Hid'.
      rewrite Forall_forall in Hm, Hrange.
      specialize (Hm id Hid). specialize (Hrange id Hid'). lia.
    + apply Forall_app. split.
      * eapply Forall_impl; [exact Hm|]. simpl. intros; lia.
      * eapply Forall_impl; [exact Hrange|]. simpl. intros; lia.
Qed.

(** X8: with at most 127 connections in all, the jacks in the interface
    descriptor have pairwise distinct IDs, and the IDs are from 1 to twice
    the number of connections, so they fit their byte and none is 0. *)
Theorem jack_ids_distinct self :
  0 <= _num_rx self -> 0 <= _num_tx self ->
  _num_rx self + _num_tx self <= 127 ->
  exists js jl,
    jacks self = Ok js
    /\ parse_jacks js = Some jl
    /\ NoDup (jack_id <$> jl)
    /\ Forall (fun id => 1 <= id <= 2 * (_num_rx self + _num_tx self))
         (jack_id <$> jl).
Proof.
  intros Hrx Htx Hmax.
  eexists _, _. split; [apply jacks_eq|].
  split; [apply parse_jacks_chunks|].
  set (rx_block := fun k => [2 * (k + 0) + 1; 2 * (k + 0) + 2]).
  set (tx_block := fun k => [2 * (k + _num_rx self) + 2;
                             2 * (k + _num_rx self) + 1]).
  assert (jack_id <$> (concat (rx_connection self <$> range (_num_rx self))
                       ++ concat (tx_connection self <$> range (_num_tx self)))
          = concat (rx_block <$> range (_num_rx self))
            ++ concat (tx_block <$> range (_num_tx self))) as ->.
  { rewrite fmap_app. f_equal.
    - unfold range.
      assert (forall l, Forall (fun k => 0 <= k < _num_rx self) l ->
                jack_id <$> concat (rx_connection self <$> l)
                = concat (rx_block <$> l)) as Hl.
      { induction 1 as [|k l Hk _ IH]; csimpl; [done|]. rewrite IH.
        unfold rx_block. rewrite emb_id_formula.
        rewrite !Z.mod_small by lia. f_equal; [lia|f_equal; lia]. }
      apply Hl, Forall_seqZ. lia.
    - unfold range.
      assert (forall l, Forall (fun k => 0 <= k < _num_tx self) l ->
                jack_id <$> concat (tx_connection self <$> l)
                = concat (tx_block <$> l)) as Hl.
      { induction 1 as [|k l Hk _ IH]; csimpl; [done|]. rewrite IH.
        unfold tx_block. rewrite emb_id_formula.
        rewrite !Z.mod_small by lia. f_equal; [lia|f_equal; lia]. }
      apply Hl, Forall_seqZ. lia. }
  unfold range.
  rewrite <- (Z2Nat.id (_num_rx self)), <- (Z2Nat.id (_num_tx self)) by lia.
  destruct (block_ids_distinct rx_block 0 (Z.to_nat (_num_rx self)) 0)
    as [Hrx_d Hrx_r]; [by left|].
  destruct (block_ids_distinct tx_block (_num_rx self)
              (Z.to_nat (_num_tx self)) 0) as [Htx_d Htx_r]; [by right|].
  rewrite Forall_forall in Hrx_r, Htx_r. split.
  - apply NoDup_app. split; [done|]. split; [|done].
    intros id Hid Hid'. specialize (Hrx_r id Hid). specialize (Htx_r id Hid').
    lia.
  - apply Forall_app. split; apply Forall_forall; intros id Hid.
    + specialize (Hrx_r id Hid). lia.
    + specialize (Htx_r id Hid). lia.
Qed.

End midi_more.

Lemma note_messages_witness :
  MidiUSB.note_on MidiUSB.__init__ 3 60 100
  = Ok [Xfer None [0x09; 0x93; 60; 100] None].
Proof.
  destruct (note_messages MidiUSB.__init__ 3 60 100)
    as (Hon & _); unfold is_byte; try lia.
  exact Hon.
Defined.

Lemma dummy_audio_header_witness :
  exists header,
    @DummyAudioInterface.get_itf_descriptor sample_framework 0 0 0
    = Ok ([9; 4; 0; 0; 0; 1; 1; 0; 0] ++ header, [])
    /\ length header = 9%nat
    /\ header !! 8%nat = Some 1.
Proof.
  destruct (@dummy_audio_header sample_framework 0 0 0)
    as (header & Hrun & Hlen & _ & _ & _ & Hnr); [lia|].
  exists header. by split_and!.
Defined.

Lemma jack_ids_distinct_witness :
  exists js jl,
    MIDIInterface.jacks (MIDIInterface.__init__ 2 1) = Ok js
    /\ parse_jacks js = Some jl
    /\ jack_id <$> jl = [1; 2; 3; 4; 6; 5]
    /\ NoDup (jack_id <$> jl).
Proof.
  destruct (@jack_ids_distinct sample_framework (MIDIInterface.__init__ 2 1))
    as (js & jl & Hjs & Hjl & Hnodup & _); simpl; try lia.
  exists js, jl. split_and!; try done.
  vm_compute in Hjs. injection Hjs as <-.
  vm_compute in Hjl. by injection Hjl as <-.
Defined.

(** ** The CDC control interface: the other requests *)

Section cdc_control_more.
Context {F : Framework}.
Import CDCControlInterface.

Implicit Types (self : CDCControlInterface.t) (request : request).

(** When the request is not the DATA stage of a class SET_LINE_CODING, the
    handler does not decode the buffer: it runs the SETUP branch or returns
    [True]. *)
Lemma handle_without_decode self (stage : Z) request :
  ~ decodes_line_coding (Handle stage request) ->
  handle_interface_control_xfer self stage request
  = let req_type := snd (fst (split_bmRequestType (bmRequestType request))) in
    if (stage =? STAGE_SETUP) && (req_type =? REQ_TYPE_CLASS) then
      if bRequest request =? _SET_LINE_CODING_REQ then
        Ok (self, the_line_coding_state, [])
      else if bRequest request =? _GET_LINE_CODING_REQ then
        Ok (self, the_line_coding_state, [])
      else if bRequest request =? _SET_CONTROL_LINE_STATE then
        Ok (with_control_line self
              (py_bool (Z.land (wValue request) 0x1))
              (py_bool (Z.land (wValue request) 0x2)), bytes_value [], [])
      else if bRequest request =? _SEND_BREAK_REQ then
        match break_cb self with
        | Some cb => Ok (self, bytes_value [], [(cb, wValue request)])
        | None => Ok (self, bytes_value [], [])
        end
      else Ok (self, True_value, [])
    else Ok (self, True_value, []).
Proof.
  intros Hnot. unfold decodes_line_coding, is_class_request in Hnot.
  unfold handle_interface_control_xfer.
  destruct (split_bmRequestType (bmRequestType request)) as [[rcp ty] dir].
  cbn [fst snd] in *. cbv zeta.
  assert ((stage =? STAGE_DATA) && (ty =? REQ_TYPE_CLASS)
          && (bRequest request =? _SET_LINE_CODING_REQ) = false) as ->.
  { apply not_true_iff_false. intros Hc.
    apply andb_true_iff in Hc as [Hc Hreq].
    apply andb_true_iff in Hc as [Hstage Hty].
    apply Hnot. by rewrite <- !Z.eqb_eq. }
  by repeat case_match.
Qed.

(** X9: a request that is none of the four class requests at SETUP stage
    and not SET_LINE_CODING at DATA stage (another stage, a type other than
    class, another request code) is left to the framework: the handler
    returns [True], changes nothing and calls no callback. *)
Theorem other_requests_unhandled self (stage : Z) request :
  ~ (stage = STAGE_SETUP /\ is_class_request request
     /\ (bRequest request = _SET_LINE_CODING_REQ
         \/ bRequest request = _GET_LINE_CODING_REQ
         \/ bRequest request = _SET_CONTROL_LINE_STATE
         \/ bRequest request = _SEND_BREAK_REQ)) ->
  ~ (stage = STAGE_DATA /\ is_class_request request
     /\ bRequest request = _SET_LINE_CODING_REQ) ->
  handle_interface_control_xfer self stage request
  = Ok (self, True_value, []).
Proof.
  intros Hsetup Hdata. rewrite handle_without_decode by exact Hdata.
  unfold is_class_request in Hsetup. cbv zeta.
  destruct ((stage =? STAGE_SETUP)
            && (snd (fst (split_bmRequestType (bmRequestType request)))
                =? REQ_TYPE_CLASS)) eqn:Hc; [|done].
  apply andb_true_iff in Hc as [Hstage%Z.eqb_eq Hty%Z.eqb_eq].
  repeat match goal with
         | |- context [bRequest request =? ?c] =>
             destruct (Z.eqb_spec (bRequest request) c);
               [exfalso; apply Hsetup; split_and!; auto|]
         end.
  done.
Qed.

(** X10: after a SET_LINE_CODING transfer has delivered a 7-byte record,
    GET_LINE_CODING at SETUP stage returns the interface's buffer, which
    holds that record, and changes nothing. *)
Theorem get_line_coding_after_set self (req_set req_get : request)
  (wire : list Z) :
  is_class_request req_set -> bRequest req_set = _SET_LINE_CODING_REQ ->
  is_class_request req_get -> bRequest req_get = _GET_LINE_CODING_REQ ->
  STAGE_SETUP <> STAGE_DATA ->
  length (line_coding_state self) = 7%nat -> length wire = 7%nat ->
  exists self',
    handle_interface_control_xfer (data_stage_write self wire)
      STAGE_DATA req_set
    = Ok (self', True_value, [])
    /\ handle_interface_control_xfer self' STAGE_SETUP req_get
       = Ok (self', the_line_coding_state, [])
    /\ line_coding_state self' = wire.
Proof.
  intros Hcs Hrs Hcg Hrg Hstage Hbuf Hlen.
  destruct wire as [|b0 [|b1 [|b2 [|b3 [|b4 [|b5 [|b6 [|? ?]]]]]]]];
    try discriminate Hlen.
  pose proof (data_stage_write_full self [b0; b1; b2; b3; b4; b5; b6]) as Hw.
  rewrite Hbuf in Hw. specialize (Hw eq_refl).
  eexists. split.
  { by apply handle_data_set_line_coding. }
  split.
  - rewrite handle_setup_class by done. by rewrite Hrg.
  - exact Hw.
Qed.

(** X11: a class SEND_BREAK request at SETUP stage calls the callback
    registered with [set_break_cb] once, with the request value as
    duration, or calls nothing when none is registered; in both cases it
    returns an empty acknowledgment and changes nothing. *)
Theorem send_break_calls_callback self request (cb : option nat) :
  is_class_request request -> bRequest request = _SEND_BREAK_REQ ->
  handle_interface_control_xfer (set_break_cb self cb) STAGE_SETUP request
  = Ok (set_break_cb self cb, bytes_value [],
        match cb with
        | Some c => [(c, wValue request)]
        | None => []
        end).
Proof.
  intros Hclass Hreq. rewrite handle_setup_class, Hreq by done.
  cbn [Z.eqb Pos.eqb set_break_cb break_cb]. by destruct cb.
Qed.

Lemma parity_repr_lookup (code : Z) :
  0 <= code ->
  (code < 5 -> exists s, list_getitem parity_bits_repr code = Ok s)
  /\ (5 <= code -> list_getitem parity_bits_repr code = Raise IndexError).
Proof.
  intros Hcode. unfold list_getitem.
  destruct (Z.ltb_spec code 0); [lia|].
  destruct (Z.leb_spec 0 code); [|lia]. cbn [andb length parity_bits_repr].
  split; intros Hc.
  - destruct (Z.ltb_spec code (Z.of_nat 5)); [|lia].
    assert (code = 0 \/ code = 1 \/ code = 2 \/ code = 3 \/ code = 4)
      as [->|[->|[->|[->| ->]]]] by lia; by eexists.
  - destruct (Z.ltb_spec code (Z.of_nat 5)); [lia|done].
Qed.

Lemma stop_repr_lookup (code : Z) :
  0 <= code ->
  (code < 3 -> exists s, list_getitem stop_bits_repr code = Ok s)
  /\ (3 <= code -> list_getitem stop_bits_repr code = Raise IndexError).
Proof.
  intros Hcode. unfold list_getitem.
  destruct (Z.ltb_spec code 0); [lia|].
  destruct (Z.leb_spec 0 code); [|lia]. cbn [andb length stop_bits_repr].
  split; intros Hc.
  - destruct (Z.ltb_spec code (Z.of_nat 3)); [|lia].
    assert (code = 0 \/ code = 1 \/ code = 2) as [->|[->| ->]] by lia;
      by eexists.
  - destruct (Z.ltb_spec code (Z.of_nat 3)); [lia|done].
Qed.

(** On an interface whose parity and stop-bit codes are not negative,
    [__repr__] returns a string when both codes are in their tables and
    raises IndexError otherwise. *)
Lemma repr_outcome self :
  0 <= parity self -> 0 <= stop_bits self ->
  (parity self < 5 /\ stop_bits self < 3 -> exists s, __repr__ self = Ok s)
  /\ (5 <= parity self \/ 3 <= stop_bits self ->
      __repr__ self = Raise IndexError).
Proof.
  intros Hp Hs.
  destruct (parity_repr_lookup (parity self) Hp) as [Hp_ok Hp_bad].
  destruct (stop_repr_lookup (stop_bits self) Hs) as [Hs_ok Hs_bad].
  unfold __repr__. split.
  - intros [Hp5 Hs3].
    destruct (Hp_ok Hp5) as [sp ->]. destruct (Hs_ok Hs3) as [ss ->].
    cbn [bind]. by eexists.
  - intros Hbad.
    destruct (Z.lt_ge_cases (parity self) 5) as [Hp5|Hp5].
    + destruct (Hp_ok Hp5) as [sp ->]. cbn [bind].
      rewrite Hs_bad by lia. done.
    + by rewrite Hp_bad.
Qed.

(** What the DATA stage of SET_LINE_CODING leaves in the stop-bits and
    parity fields. *)
Lemma set_line_coding_fields self request (wire : list Z) :
  is_class_request request -> bRequest request = _SET_LINE_CODING_REQ ->
  STAGE_SETUP <> STAGE_DATA ->
  length (line_coding_state self) = 7%nat -> length wire = 7%nat ->
  Forall is_byte wire ->
  exists self',
    handle_interface_control_xfer (data_stage_write self wire)
      STAGE_DATA request
    = Ok (self', True_value, [])
    /\ stop_bits self' = nth 4 wire 0
    /\ parity self' = nth 5 wire 0.
Proof.
  intros Hclass Hreq Hstage Hbuf Hlen Hbytes.
  destruct wire as [|b0 [|b1 [|b2 [|b3 [|b4 [|b5 [|b6 [|? ?]]]]]]]];
    try discriminate Hlen.
  pose proof (data_stage_write_full self [b0; b1; b2; b3; b4; b5; b6]) as Hw.
  rewrite Hbuf in Hw. specialize (Hw eq_refl).
  eexists. split.
  { by apply handle_data_set_line_coding. }
  cbn [stop_bits parity le_int nth]. split; lia.
Qed.

(** X12: the line-coding codes are stored without validation, and
    [__repr__] indexes its tables with them: after a SET_LINE_CODING
    transfer whose record has a parity code (byte 5) of 5 or more, or a
    stop-bits code (byte 4) of 3 or more, [__repr__] raises IndexError;
    with both codes in their tables it returns a string. *)
Theorem repr_after_set_line_coding self request (wire : list Z) :
  is_class_request request -> bRequest request = _SET_LINE_CODING_REQ ->
  STAGE_SETUP <> STAGE_DATA ->
  length (line_coding_state self) = 7%nat -> length wire = 7%nat ->
  Forall is_byte wire ->
  exists self',
    handle_interface_control_xfer (data_stage_write self wire)
      STAGE_DATA request
    = Ok (self', True_value, [])
    /\ (nth 5 wire 0 < 5 /\ nth 4 wire 0 < 3 ->
        exists s, __repr__ self' = Ok s)
    /\ (5 <= nth 5 wire 0 \/ 3 <= nth 4 wire 0 ->
        __repr__ self' = Raise IndexError).
Proof.
  intros Hclass Hreq Hstage Hbuf Hlen Hbytes.
  destruct (set_line_coding_fields self request wire)
    as (self' & Hrun & Hstop & Hparity); try done.
  exists self'. split; [exact Hrun|].
  assert (is_byte (nth 4 wire 0) /\ is_byte (nth 5 wire 0)) as [H4 H5].
  { destruct wire as [|b0 [|b1 [|b2 [|b3 [|b4 [|b5 [|b6 [|? ?]]]]]]]];
      try discriminate Hlen.
    repeat match goal with H : Forall _ (_ :: _) |- _ =>
      apply Forall_cons in H; destruct H as [? H] end.
    done. }
  unfold is_byte in *.
  rewrite <- Hstop, <- Hparity in *. apply repr_outcome; lia.
Qed.

(** A handler call that is not the DATA stage of a class SET_LINE_CODING
    returns normally and keeps the decoded line-coding fields. *)
Lemma handle_keeps_line_coding self (stage : Z) request :
  ~ decodes_line_coding (Handle stage request) ->
  exists self' ret calls,
    handle_interface_control_xfer self stage request = Ok (self', ret, calls)
    /\ baudrate self' = baudrate self /\ data_bits self' = data_bits self
    /\ stop_bits self' = stop_bits self /\ parity self' = parity self.
Proof.
  intros Hnot. rewrite handle_without_decode by done. cbv zeta.
  repeat case_match; eexists _, _, _; (split; [reflexivity|done]).
Qed.

(** X13: the decoded line-coding fields of a fresh interface (baud rate
    and data bits unset, stop-bits and parity codes 0) stay as they are
    until the DATA stage of a class SET_LINE_CODING request is handled,
    whatever else is handled and whatever is written into the buffer
    meanwhile. *)
Theorem line_coding_unset_until_decoded (events : list control_event) :
  Forall (fun e => ~ decodes_line_coding e) events ->
  exists self',
    handle_all __init__ events = Ok self'
    /\ baudrate self' = None /\ data_bits self' = None
    /\ stop_bits self' = 0 /\ parity self' = 0.
Proof.
  assert (forall self,
             Forall (fun e => ~ decodes_line_coding e) events ->
             exists self',
               handle_all self events = Ok self'
               /\ baudrate self' = baudrate self
               /\ data_bits self' = data_bits self
               /\ stop_bits self' = stop_bits self
               /\ parity self' = parity self) as Hrun.
  { induction events as [|e events IH]; intros self Hall.
    - by exists self.
    - apply Forall_cons in Hall as [He Hall].
      destruct e as [stage request|payload|cb]; cbn [handle_all].
      + destruct (handle_keeps_line_coding self stage request He)
          as (self1 & ret & calls & -> & <- & <- & <- & <-).
        by apply IH.
      + destruct (IH (data_stage_write self payload) Hall)
          as (self' & Hrun & Hfields).
        by exists self'.
      + destruct (IH (set_break_cb self cb) Hall)
          as (self' & Hrun & Hfields).
        by exists self'. }
  intros Hall. destruct (Hrun __init__ Hall) as (self' & -> & Hfields).
  by exists self'.
Qed.

End cdc_control_more.

Lemma other_requests_unhandled_witness :
  @CDCControlInterface.handle_interface_control_xfer sample_framework
    CDCControlInterface.__init__ 3
    (CDCControlInterface.Request 0x21 0x20 0 0 7)
  = Ok (CDCControlInterface.__init__, CDCControlInterface.True_value, []).
Proof.
  apply (@other_requests_unhandled sample_framework);
    intros [Hstage _]; discriminate Hstage.
Defined.

Lemma get_line_coding_after_set_witness :
  exists self',
    @CDCControlInterface.handle_interface_control_xfer sample_framework
      self' 1 (CDCControlInterface.Request 0xa1 0x21 0 0 7)
    = Ok (self', CDCControlInterface.the_line_coding_state, [])
    /\ CDCControlInterface.line_coding_state self'
       = [0x00; 0xc2; 0x01; 0x00; 0; 0; 8].
Proof.
  destruct (@get_line_coding_after_set sample_framework
              CDCControlInterface.__init__
              (CDCControlInterface.Request 0x21 0x20 0 0 7)
              (CDCControlInterface.Request 0xa1 0x21 0 0 7)
              [0x00; 0xc2; 0x01; 0x00; 0; 0; 8])
    as (self' & _ & Hget & Hbuf); try reflexivity.
  - discriminate.
  - by exists self'.
Defined.

Lemma send_break_calls_callback_witness :
  @CDCControlInterface.handle_interface_control_xfer sample_framework
    (CDCControlInterface.set_break_cb CDCControlInterface.__init__ (Some 1%nat))
    1 (CDCControlInterface.Request 0x21 0x23 250 0 0)
  = Ok (CDCControlInterface.set_break_cb CDCControlInterface.__init__
          (Some 1%nat),
        CDCControlInterface.bytes_value [], [(1%nat, 250)]).
Proof.
  apply (@send_break_calls_callback sample_framework
           CDCControlInterface.__init__
           (CDCControlInterface.Request 0x21 0x23 250 0 0) (Some 1%nat));
    reflexivity.
Defined.

(** A record with parity code 7: the transfer is accepted, and [__repr__]
    then raises. *)
Lemma repr_after_set_line_coding_witness :
  exists self',
    @CDCControlInterface.handle_interface_control_xfer sample_framework
      (CDCControlInterface.data_stage_write CDCControlInterface.__init__
         [0x80; 0x25; 0; 0; 0; 7; 8])
      2 (CDCControlInterface.Request 0x21 0x20 0 0 7)
    = Ok (self', CDCControlInterface.True_value, [])
    /\ CDCControlInterface.__repr__ self' = Raise IndexError.
Proof.
  destruct (@repr_after_set_line_coding sample_framework
              CDCControlInterface.__init__
              (CDCControlInterface.Request 0x21 0x20 0 0 7)
              [0x80; 0x25; 0; 0; 0; 7; 8])
    as (self' & Hrun & _ & Hbad); try reflexivity.
  - discriminate.
  - repeat (apply Forall_cons_2 || apply Forall_nil_2); unfold is_byte; lia.
  - exists self'. split; [exact Hrun|]. apply Hbad. simpl. lia.
Defined.

(** SET_LINE_CODING at SETUP, the DATA-stage write and GET_LINE_CODING,
    without the DATA-stage call of the handler: the fields stay unset. *)
Lemma line_coding_unset_until_decoded_witness :
  exists self',
    @handle_all sample_framework CDCControlInterface.__init__
      [Handle 1 (CDCControlInterface.Request 0x21 0x20 0 0 7);
       DataStageWrite [0x80; 0x25; 0; 0; 0; 0; 8];
       Handle 1 (CDCControlInterface.Request 0xa1 0x21 0 0 7)]
    = Ok self'
    /\ CDCControlInterface.baudrate self' = None.
Proof.
  destruct (@line_coding_unset_until_decoded sample_framework
              [Handle 1 (CDCControlInterface.Request 0x21 0x20 0 0 7);
               DataStageWrite [0x80; 0x25; 0; 0; 0; 0; 8];
               Handle 1 (CDCControlInterface.Request 0xa1 0x21 0 0 7)])
    as (self' & Hrun & Hbaud & _).
  - repeat (apply Forall_cons_2 || apply Forall_nil_2); simpl;
      first [ intros (Hstage & _); discriminate Hstage | intros [] ].
  - by exists self'.
Defined.

(** ** The CDC data path: enumeration, and reads that time out *)

Section cdc_data_more.
Context {F : Framework}.
Import CDCDataInterface.

Implicit Types (w : world) (p : list Z).

(** X14: on an enumerated interface, a [read] that asks for no bytes, or
    during which nothing completes before the timeout, returns an empty
    buffer and leaves the transfer it submitted in flight beside those that
    were: the transfer is abandoned, not revoked. *)
Theorem read_idle_leaves_transfer w (nbytes : Z)
  (periods : list (list (Z * list Z))) (ep : Z) :
  ep_out (itf w) = Some ep ->
  nbytes <= 0 \/ Forall (fun cs => cs = []) periods ->
  exists w',
    read w nbytes periods = Ok (w', [])
    /\ in_flight w'
       = in_flight w ++ [Xfer (Some ep) (rx_buf (itf w)) (Some _cb_rx_cb)]
    /\ delivered w' = delivered w
    /\ rx_buf (itf w') = rx_buf (itf w).
Proof.
  intros Hep Hidle.
  destruct (read_accumulates w nbytes periods ep Hep)
    as (w' & new & Hread & Hd & _ & _ & Hnew).
  destruct (Hnew Hidle) as (-> & Hfl & Hbuf).
  exists w'. rewrite app_nil_r in Hd. by split_and!.
Qed.

(** X15: when receive transfers of earlier reads are still in flight,
    their completions are appended to the buffer of the current [read] as
    well: on an enumerated interface [read(nbytes)], for nbytes >= 1,
    returns fewer than nbytes bytes plus one receive buffer for its own
    transfer and one for each receive transfer that was already in
    flight. *)
Theorem read_bound_with_stale w (nbytes : Z)
  (periods : list (list (Z * list Z))) (ep : Z) :
  ep_out (itf w) = Some ep -> 1 <= nbytes ->
  exists w' buf,
    read w nbytes periods = Ok (w', buf)
    /\ Z.of_nat (length buf)
       <= nbytes - 1
          + (Z.of_nat (count_rx (in_flight w)) + 1)
            * Z.of_nat (length (rx_buf (itf w))).
Proof.
  intros Hep Hn.
  destruct (read_accumulates w nbytes periods ep Hep)
    as (w' & new & Hread & _ & _ & Hbound & _).
  exists w', (concat new). split; [done|]. by apply Hbound.
Qed.

(** X16: the endpoints of the data interface are assigned by
    [get_endpoint_descriptors], not by the constructor: before it, [write]
    and [read] raise AttributeError; after it, [write] submits the data on
    the IN endpoint, (ep_addr + 1) | EP_IN_FLAG, without a callback, and a
    [read] submits the receive buffer on the OUT endpoint, ep_addr + 2. *)
Theorem data_interface_needs_enumeration (timeout ep_addr str_idx nbytes : Z)
  (data : list Z) (fl : list xfer) (del : list (list Z))
  (periods : list (list (Z * list Z))) :
  let self0 := __init__ timeout in
  let self := fst (get_endpoint_descriptors self0 ep_addr str_idx) in
  write self0 data = Raise AttributeError
  /\ read (World self0 fl del) nbytes periods = Raise AttributeError
  /\ enumerated self
  /\ write self data
     = Ok [Xfer (Some (Z.lor (ep_addr + 1) EP_IN_FLAG)) data None]
  /\ exists w' buf,
      read (World self fl del) nbytes [] = Ok (w', buf)
      /\ in_flight w'
         = fl ++ [Xfer (Some (ep_addr + 2)) (rx_buf self0) (Some _cb_rx_cb)].
Proof.
  intros self0 self. split; [reflexivity|].
  split; [by apply read_before_enumeration|].
  split; [split; by eexists|]. split; [reflexivity|].
  destruct (read_accumulates (World self fl del) nbytes [] (ep_addr + 2))
    as (w' & new & Hread & _ & _ & _ & Hidle); [reflexivity|].
  destruct Hidle as (_ & Hfl & _); [right; apply Forall_nil_2|].
  by exists w', (concat new).
Qed.

End cdc_data_more.

Lemma read_idle_leaves_transfer_witness :
  exists w',
    CDCDataInterface.read sample_data_world 64 [[]; []; []] = Ok (w', [])
    /\ CDCDataInterface.in_flight w'
       = [Xfer (Some 2) (repeat 0 64) (Some _cb_rx_cb)].
Proof.
  destruct (read_idle_leaves_transfer sample_data_world 64 [[]; []; []] 2)
    as (w' & Hrun & Hfl & _); [reflexivity| |].
  - right. repeat (apply Forall_cons_2 || apply Forall_nil_2); reflexivity.
  - exists w'. split; [exact Hrun|]. by rewrite Hfl.
Defined.

(** A [read(1)] that times out, and then a second [read(1)] during which
    the host sends two full packets: the transfer the first read left in
    flight delivers into the second read as well, which returns both
    packets, 128 bytes. *)
Lemma read_bound_with_stale_witness :
  exists w1 w2 buf,
    CDCDataInterface.read sample_data_world 1 [[]] = Ok (w1, [])
    /\ count_rx (CDCDataInterface.in_flight w1) = 1%nat
    /\ CDCDataInterface.read w1 1 [[(2, repeat 1 64); (2, repeat 2 64)]]
       = Ok (w2, buf)
    /\ length buf = 128%nat
    /\ Z.of_nat (length buf) <= 1 - 1 + (1 + 1) * 64.
Proof.
  destruct (read_idle_leaves_transfer sample_data_world 1 [[]] 2)
    as (w1 & Hrun1 & Hfl1 & _ & Hbuf1); [reflexivity| |].
  { right. repeat (apply Forall_cons_2 || apply Forall_nil_2); reflexivity. }
  assert (CDCDataInterface.ep_out (CDCDataInterface.itf w1) = Some 2) as Hep1.
  { vm_compute in Hrun1. by injection Hrun1 as <-. }
  destruct (read_bound_with_stale w1 1
              [[(2, repeat 1 64); (2, repeat 2 64)]] 2 Hep1)
    as (w2 & buf & Hrun2 & Hbound); [lia|].
  exists w1, w2, buf. split; [exact Hrun1|].
  vm_compute in Hrun1. injection Hrun1 as <-.
  split; [reflexivity|]. split; [exact Hrun2|].
  vm_compute in Hrun2. injection Hrun2 as _ <-.
  split; [reflexivity|]. simpl. lia.
Defined.
